(** * Git workflow automation server: orchestration of commit, push,
      pull-request creation and merge ([src/index.ts])

    A shallow embedding of the four workflow operations and of the helpers
    they rely on.

    - JavaScript strings are modelled as [string], sequences of 8-bit code
      units; [trim], the regular expressions and [String.prototype.replace]
      (with its [$]-patterns in the replacement text) are written out.
    - The collaborators (simple-git, the child process [exec], the [fs]
      calls, the clock, [path.join]) form an explicit environment [Env].
      Every call either returns or throws an [Error] object, and the answer
      may depend on everything that happened before.  This includes the
      construction of the simple-git handle, which checks its base
      directory.
    - Effects are threaded through a state-and-exception monad over a
      [World] (the log of calls and the files written); the world reached
      when an exception is thrown is kept, as in JavaScript.
    - Optional arguments are [option] values; default parameter values
      apply to [None]; truthiness tests are written as such. *)

From Stdlib Require Import String Ascii List Bool Arith NArith Lia DecimalString.
Import ListNotations.
Local Open Scope string_scope.

(* ===================================================================== *)
(** ** JavaScript string helpers *)
(* ===================================================================== *)

Module Js.

(** The double quote and the line feed, which cannot be written inside a
    literal. *)
Definition dq : string := String (ascii_of_nat 34) EmptyString.
Definition nl : string := String (ascii_of_nat 10) EmptyString.

(** Truthiness of a string, and of an optional ([undefined]-able) string. *)
Definition truthy (s : string) : bool :=
  match s with EmptyString => false | String _ _ => true end.

Definition truthy_opt (o : option string) : bool :=
  match o with Some s => truthy s | None => false end.

(** [a || b] on an optional string with a string fallback. *)
Definition or_else (o : option string) (d : string) : string :=
  match o with
  | Some s => if truthy s then s else d
  | None => d
  end.

(** A default parameter value: used exactly when the argument is
    [undefined]. *)
Definition dflt {A : Type} (o : option A) (d : A) : A :=
  match o with Some a => a | None => d end.

(** [`${x}`] of a possibly-undefined string. *)
Definition show_opt (o : option string) : string :=
  match o with Some s => s | None => "undefined" end.

(** [`${n}`] of a non-negative integer. *)
Definition show_N (n : N) : string := NilZero.string_of_uint (N.to_uint n).

(** White space and line terminators of the 8-bit range: what [trim] strips
    and what [\s] matches. *)
Definition is_space (c : ascii) : bool :=
  let n := nat_of_ascii c in
  (((9 <=? n) && (n <=? 13)) || (n =? 32) || (n =? 160))%nat.

Definition is_digit (c : ascii) : bool :=
  let n := nat_of_ascii c in ((48 <=? n) && (n <=? 57))%nat.

Definition not_char (a : ascii) (c : ascii) : bool := negb (Ascii.eqb a c).
Definition not_space (c : ascii) : bool := negb (is_space c).

Fixpoint trimStart (s : string) : string :=
  match s with
  | EmptyString => EmptyString
  | String c s' => if is_space c then trimStart s' else s
  end.

Fixpoint trimEnd (s : string) : string :=
  match s with
  | EmptyString => EmptyString
  | String c s' =>
      match trimEnd s' with
      | EmptyString => if is_space c then EmptyString else String c EmptyString
      | t => String c t
      end
  end.

(** [String.prototype.trim]. *)
Definition trim (s : string) : string := trimEnd (trimStart s).

Fixpoint all_chars (p : ascii -> bool) (s : string) : bool :=
  match s with
  | EmptyString => true
  | String c s' => p c && all_chars p s'
  end.

(** [strip_prefix p s] is [Some r] when [s = p ++ r]. *)
Fixpoint strip_prefix (p s : string) : option string :=
  match p with
  | EmptyString => Some s
  | String a p' =>
      match s with
      | String b s' => if Ascii.eqb a b then strip_prefix p' s' else None
      | EmptyString => None
      end
  end.

(** The first [n] code units of [s]. *)
Fixpoint take (n : nat) (s : string) : string :=
  match n, s with
  | S n', String c s' => String c (take n' s')
  | _, _ => EmptyString
  end.

(** Is [needle] a substring of [s]? ([String.prototype.includes]) *)
Fixpoint includes (needle s : string) : bool :=
  match strip_prefix needle s with
  | Some _ => true
  | None => match s with
            | EmptyString => false
            | String _ s' => includes needle s'
            end
  end.

(** The text after the last occurrence of [c], if there is one. *)
Fixpoint afterLast (c : ascii) (s : string) : option string :=
  match s with
  | EmptyString => None
  | String a s' =>
      match afterLast c s' with
      | Some t => Some t
      | None => if Ascii.eqb a c then Some s' else None
      end
  end.

End Js.

(* ===================================================================== *)
(** ** Regular expressions and [String.prototype.replace] *)
(* ===================================================================== *)

Module Regex.
Import Js.

(** The fragment of regular expressions the source uses: literals, greedy
    repetitions of a character class, one capturing group, and [$] (no
    [m] flag: end of input only). *)
Inductive node : Type :=
| Lit (s : string)
| Plus (cls : ascii -> bool)
| Star (cls : ascii -> bool)
| Open
| Close
| Eos.

Definition regex : Type := list node.

(** Outcome of matching at one position: what is left of the input and the
    text of group 1, if the group took part. *)
Record hit : Type := mkHit { h_rest : string; h_cap : option string }.

(** Greedy repetition with backtracking: consume as long as the class
    accepts, then give back one code unit at a time until the continuation
    succeeds. *)
Fixpoint greedy (p : ascii -> bool) (k : string -> option hit) (s : string)
  : option hit :=
  match s with
  | String c s' =>
      if p c then
        match greedy p k s' with
        | Some h => Some h
        | None => k s
        end
      else k s
  | EmptyString => k s
  end.

Fixpoint matchHere (r : regex) (opened : string) (cap : option string)
  (s : string) {struct r} : option hit :=
  match r with
  | [] => Some (mkHit s cap)
  | Lit l :: r' =>
      match strip_prefix l s with
      | Some s' => matchHere r' opened cap s'
      | None => None
      end
  | Plus p :: r' =>
      match s with
      | String c s' =>
          if p c then greedy p (matchHere r' opened cap) s' else None
      | EmptyString => None
      end
  | Star p :: r' => greedy p (matchHere r' opened cap) s
  | Open :: r' => matchHere r' s cap s
  | Close :: r' =>
      matchHere r' opened
        (Some (take (String.length opened - String.length s) opened)) s
  | Eos :: r' =>
      match s with
      | EmptyString => matchHere r' opened cap s
      | String _ _ => None
      end
  end.

Fixpoint ngroups (r : regex) : nat :=
  match r with
  | [] => 0
  | Open :: r' => S (ngroups r')
  | _ :: r' => ngroups r'
  end.

(** A successful search: the text before the match, the match, the text
    after it, and the captures (one entry per group of the pattern). *)
Record found : Type := mkFound {
  f_before : string;
  f_matched : string;
  f_after : string;
  f_caps : list (option string)
}.

(** Leftmost match, scanning start positions from the left. *)
Fixpoint search_from (r : regex) (before s : string) : option found :=
  match matchHere r s None s with
  | Some h =>
      Some (mkFound before
              (take (String.length s - String.length (h_rest h)) s)
              (h_rest h)
              (match ngroups r with 0 => [] | S _ => [h_cap h] end))
  | None =>
      match s with
      | EmptyString => None
      | String c s' => search_from r (before ++ String c EmptyString) s'
      end
  end.

(** [RegExp.prototype.exec] / [String.prototype.match] without the [g]
    flag. *)
Definition search (r : regex) (s : string) : option found :=
  search_from r EmptyString s.

(** [m[1]] of a match result. *)
Definition group1 (f : found) : string :=
  match f_caps f with
  | Some c :: _ => c
  | _ => EmptyString
  end.

Definition digit_val (c : ascii) : nat := nat_of_ascii c - 48.

Definition capture (caps : list (option string)) (i : nat) : string :=
  match nth_error caps (i - 1) with
  | Some (Some c) => c
  | _ => EmptyString
  end.

(** The replacement-template expansion of [String.prototype.replace]
    (GetSubstitution): [$$], [$&], [$`], [$'], [$n] and [$nn].  The patterns
    have no named group, so [$<] stays literal, as does a [$] followed by
    anything else. *)
Fixpoint getSubstitution (matched before after : string)
  (caps : list (option string)) (template : string) : string :=
  match template with
  | EmptyString => EmptyString
  | String c t =>
      if Ascii.eqb c "$" then
        match t with
        | EmptyString => "$"
        | String d1 t1 =>
            if Ascii.eqb d1 "$" then
              "$" ++ getSubstitution matched before after caps t1
            else if Ascii.eqb d1 "&" then
              matched ++ getSubstitution matched before after caps t1
            else if Ascii.eqb d1 "`" then
              before ++ getSubstitution matched before after caps t1
            else if Ascii.eqb d1 "'" then
              after ++ getSubstitution matched before after caps t1
            else if is_digit d1 then
              let one :=
                if ((1 <=? digit_val d1) && (digit_val d1 <=? List.length caps))%nat
                then capture caps (digit_val d1)
                       ++ getSubstitution matched before after caps t1
                else String c (String d1
                       (getSubstitution matched before after caps t1)) in
              match t1 with
              | String d2 t2 =>
                  if is_digit d2 then
                    let idx := 10 * digit_val d1 + digit_val d2 in
                    if (List.length caps <? idx)%nat then one
                    else if (1 <=? idx)%nat then
                      capture caps idx
                        ++ getSubstitution matched before after caps t2
                    else String c (String d1 (String d2
                           (getSubstitution matched before after caps t2)))
                  else one
              | EmptyString => one
              end
            else String c (getSubstitution matched before after caps t)
        end
      else String c (getSubstitution matched before after caps t)
  end.

(** [s.replace(r, template)] for a pattern without the [g] flag: only the
    leftmost match is replaced. *)
Definition replace (r : regex) (template : string) (s : string) : string :=
  match search r s with
  | None => s
  | Some f =>
      f_before f
        ++ getSubstitution (f_matched f) (f_before f) (f_after f) (f_caps f)
             template
        ++ f_after f
  end.

(** [s.replace(/c/g, template)] for a pattern that is one literal code
    unit: every occurrence is replaced, left to right. *)
Fixpoint replaceAllChar (c : ascii) (template : string) (before s : string)
  : string :=
  match s with
  | EmptyString => EmptyString
  | String a s' =>
      if Ascii.eqb a c then
        getSubstitution (String a EmptyString) before s' [] template
          ++ replaceAllChar c template (before ++ String a EmptyString) s'
      else String a (replaceAllChar c template (before ++ String a EmptyString) s')
  end.

(** The patterns of the source. *)

(** The pattern [--body\s+] followed by a double quote, a greedy run of
    anything but a double quote, and a closing double quote. *)
Definition re_body_quoted : regex :=
  [Lit "--body"; Plus is_space; Lit dq; Star (not_char (ascii_of_nat 34)); Lit dq].

(** The pattern [/--body\s+[^\s]+/]. *)
Definition re_body_bare : regex :=
  [Lit "--body"; Plus is_space; Plus not_space].

(** The pattern [--title\s+] followed by a double quote, group 1 (a greedy
    run of anything but a double quote) and a closing double quote. *)
Definition re_title : regex :=
  [Lit "--title"; Plus is_space; Lit dq; Open;
   Star (not_char (ascii_of_nat 34)); Close; Lit dq].

(** The pattern [/\/pull\/(\d+)$/]. *)
Definition re_pull : regex :=
  [Lit "/pull/"; Open; Plus is_digit; Close; Eos].

End Regex.

(* ===================================================================== *)
(** ** The host: exceptions, collaborators, effects *)
(* ===================================================================== *)

Module Host.
Import Js.

(** A thrown [Error] object.  [exec] rejects with an error that also carries
    the captured output; other errors leave those properties undefined. *)
Record JsError : Type := mkError {
  e_name : string;
  e_message : string;
  e_stdout : option string;
  e_stderr : option string
}.

(** [new Error(msg)]. *)
Definition Error (msg : string) : JsError := mkError "Error" msg None None.

(** [`${e}`], that is [Error.prototype.toString]. *)
Definition toString (e : JsError) : string :=
  if truthy (e_name e) then
    if truthy (e_message e) then e_name e ++ ": " ++ e_message e else e_name e
  else e_message e.

Inductive Result (A : Type) : Type :=
| Threw (e : JsError)
| Returned (a : A).
Arguments Threw {A} e.
Arguments Returned {A} a.

(** Every call that leaves the process, in the order it was made. *)
Inductive Event : Type :=
| EvSimpleGit (baseDir : string)
| EvCheckIsRepo (dir : string)
| EvStatus (dir : string)
| EvCheckoutBranch (dir branch startPoint : string)
| EvCheckout (dir branch : string)
| EvAdd (dir : string) (files : list string)
| EvCommit (dir message : string)
| EvRevparse (dir : string) (args : list string)
| EvPush (dir remote branch : string)
| EvWriteFile (path content : string)
| EvUnlink (path : string)
| EvExec (command cwd : string).

(** The part of the outside world the program can observe or change: the log
    of calls made so far and the files it has written (path, content). *)
Record World : Type := mkWorld {
  trace : list Event;
  files : list (string * string)
}.

Definition log (ev : Event) (w : World) : World :=
  mkWorld (trace w ++ [ev]) (files w).

Fixpoint exists_file (p : string) (fs : list (string * string)) : bool :=
  match fs with
  | [] => false
  | (q, _) :: fs' => String.eqb p q || exists_file p fs'
  end.

Fixpoint remove_file (p : string) (fs : list (string * string))
  : list (string * string) :=
  match fs with
  | [] => []
  | (q, c) :: fs' =>
      if String.eqb p q then remove_file p fs' else (q, c) :: remove_file p fs'
  end.

(** What [git.commit] resolves to, as far as the source reads it. *)
Record CommitResult : Type := mkCommitResult {
  cr_commit : string;
  cr_changes : N;
  cr_insertions : N;
  cr_deletions : N
}.

(** What [exec] resolves to. *)
Record ExecOutput : Type := mkExecOutput { stdout : string; stderr : string }.

(** The collaborators.  Each answer may depend on the whole world at the
    time of the call; a call either returns or throws. *)
Record Env : Type := mkEnv {
  cwd : string;
  tmpdir : string;
  join : string -> string -> string;
  now : World -> N;
  simpleGit_ : World -> string -> Result unit;
  checkIsRepo_ : World -> string -> Result bool;
  status_ : World -> string -> Result unit;
  checkoutBranch_ : World -> string -> string -> string -> Result unit;
  checkout_ : World -> string -> string -> Result unit;
  add_ : World -> string -> list string -> Result unit;
  commit_ : World -> string -> string -> Result CommitResult;
  revparse_ : World -> string -> list string -> Result string;
  push_ : World -> string -> string -> string -> Result unit;
  exec_ : World -> string -> string -> Result ExecOutput;
  writeFile_ : World -> string -> string -> Result unit;
  unlink_ : World -> string -> Result unit
}.

(** Computations: a world in, an outcome and a world out.  The world
    reached when an exception is thrown is kept. *)
Definition M (A : Type) : Type := World -> Result A * World.

Definition ret {A : Type} (a : A) : M A := fun w => (Returned a, w).

Definition throw {A : Type} (e : JsError) : M A := fun w => (Threw e, w).

Definition bind {A B : Type} (c : M A) (k : A -> M B) : M B :=
  fun w =>
    match c w with
    | (Returned a, w') => k a w'
    | (Threw e, w') => (Threw e, w')
    end.

(** [try { c } catch (e) { h e }]. *)
Definition try_catch {A : Type} (c : M A) (h : JsError -> M A) : M A :=
  fun w =>
    match c w with
    | (Returned a, w') => (Returned a, w')
    | (Threw e, w') => h e w'
    end.

(** [try { c } finally { f }]: [f] always runs; an exception of [f]
    replaces the outcome of [c]. *)
Definition try_finally {A : Type} (c : M A) (f : M unit) : M A :=
  fun w =>
    match c w with
    | (r, w') =>
        match f w' with
        | (Returned _, w'') => (r, w'')
        | (Threw e, w'') => (Threw e, w'')
        end
    end.

(** A call to a collaborator: logged, answered by the environment. *)
Definition call {A : Type} (ev : Event) (answer : World -> Result A) : M A :=
  fun w => (answer w, log ev w).

End Host.

(* ===================================================================== *)
(** ** The workflow operations *)
(* ===================================================================== *)

Module Workflow.
Import Js Regex Host.

Declare Scope js_scope.
Delimit Scope js_scope with js.
Notation "x <- c ;; k" := (bind c (fun x => k))
  (at level 61, c at next level, right associativity) : js_scope.
Notation "c ;;; k" := (bind c (fun _ => k))
  (at level 61, right associativity) : js_scope.
Local Open Scope js_scope.

Inductive MergeMethod : Type := Merge | Squash | Rebase.

#[local] Set Warnings "-register-all".

(** The payloads the operations put in [details]. *)
Inductive Details : Type :=
| CommitPreview (files : list string) (commitMessage : string)
    (branch workingDir : option string)
| CommitDone (commit branch : string) (files insertions deletions : N)
| PullRequestPreview (title body baseBranch : string)
    (headBranch : option string)
| PullRequestDone (url title baseBranch headBranch : string)
| MergePreview (prNumber : string) (mergeMethod : MergeMethod)
    (deleteBranch : bool)
| MergeDone (prNumber : string) (mergeMethod : MergeMethod) (output : string)
| WorkflowPreview (files : list string)
    (commitMessage prTitle prBody : string) (branch : option string)
    (baseBranch : string) (autoMerge : bool)
| WorkflowDone (commit pullRequest merge : option Details).

(** [interface WorkflowResult]. *)
Record WorkflowResult : Type := mkResult {
  success : bool;
  message : string;
  details : option Details;
  error : option string
}.

(** [details?.url]. *)
Definition details_url (d : option Details) : option string :=
  match d with
  | Some (PullRequestDone url _ _ _) => Some url
  | _ => None
  end.

(** [escapePowerShellString]: four global replacements, in this order. *)
Definition escapePowerShellString (str : string) : string :=
  replaceAllChar (ascii_of_nat 34) (dq ++ dq) EmptyString
    (replaceAllChar "$" "`$" EmptyString
       (replaceAllChar "`" "``" EmptyString
          (replaceAllChar "'" "''" EmptyString str))).

(** The wrapper that clears the token variables before the command. *)
Definition powerShellCommand (command : string) : string :=
  "powershell -Command " ++ dq
    ++ "Remove-Item Env:GH_TOKEN -ErrorAction SilentlyContinue; "
    ++ "Remove-Item Env:GITHUB_TOKEN -ErrorAction SilentlyContinue; "
    ++ command ++ dq.

(** The error both command runners rethrow. *)
Definition commandFailed (error : JsError) : JsError :=
  Error ("Command failed: " ++ e_message error
           ++ nl ++ "Stdout: " ++ show_opt (e_stdout error)
           ++ nl ++ "Stderr: " ++ show_opt (e_stderr error)).

Definition mergeFlag (mergeMethod : MergeMethod) : string :=
  match mergeMethod with
  | Squash => "--squash"
  | Rebase => "--rebase"
  | Merge => "--merge"
  end.

Definition deleteFlag (deleteBranch : bool) : string :=
  if deleteBranch then "--delete-branch" else EmptyString.

(** The command line [mergePullRequest] builds. *)
Definition mergeCommand (prNumber : string) (mergeMethod : MergeMethod)
  (deleteBranch : bool) : string :=
  trim ("gh pr merge " ++ prNumber ++ " " ++ mergeFlag mergeMethod
          ++ " " ++ deleteFlag deleteBranch).

(** The command line [createPullRequest] hands to [executeGitHubCommand]. *)
Definition createCommand (title body baseBranch headBranch : string) : string :=
  "gh pr create --title " ++ dq ++ title ++ dq
    ++ " --body " ++ dq ++ body ++ dq
    ++ " --base " ++ baseBranch ++ " --head " ++ headBranch.

(** The two replacements that turn an inline body into a body file, in the
    order the source applies them. *)
Definition withBodyFile (tempBodyFile command : string) : string :=
  replace re_body_bare ("--body-file " ++ dq ++ tempBodyFile ++ dq)
    (replace re_body_quoted ("--body-file " ++ dq ++ tempBodyFile ++ dq)
       command).

(** The replacement that re-quotes the title, applied when there is one. *)
Definition withTitle (title : option string) (command : string) : string :=
  if truthy_opt title then
    replace re_title
      ("--title '" ++ escapePowerShellString (dflt title EmptyString) ++ "'")
      command
  else command.

Section Operations.

Variable E : Env.

(** [fs.writeFileSync]: on success the file exists with the content. *)
Definition writeFileSync (path content : string) : M unit :=
  fun w =>
    match writeFile_ E w path content with
    | Returned _ =>
        (Returned tt,
         mkWorld (trace w ++ [EvWriteFile path content])
           ((path, content) :: remove_file path (files w)))
    | Threw e => (Threw e, log (EvWriteFile path content) w)
    end.

(** [fs.unlinkSync]: throws when the file is not there; otherwise the
    environment decides whether the removal goes through. *)
Definition unlinkSync (path : string) : M unit :=
  fun w =>
    if exists_file path (files w) then
      match unlink_ E w path with
      | Returned _ =>
          (Returned tt,
           mkWorld (trace w ++ [EvUnlink path]) (remove_file path (files w)))
      | Threw e => (Threw e, log (EvUnlink path) w)
      end
    else
      (Threw (Error ("ENOENT: no such file or directory, unlink '"
                       ++ path ++ "'")),
       log (EvUnlink path) w).

Definition exec (command cwd' : string) : M ExecOutput :=
  call (EvExec command cwd') (fun w => exec_ E w command cwd').

(** The name given to the body file; computed before anything in the [try]
    block can throw, so [finally] sees it whenever the body is truthy. *)
Definition tempBodyFileName (w : World) : string :=
  join E (tmpdir E) ("gh-pr-body-" ++ show_N (now E w) ++ ".txt").

(** The [finally] block of [executeGitHubCommand]: remove the body file
    if one was named, ignoring any error of the removal. *)
Definition cleanup (tempBodyFile : option string) : M unit :=
  match tempBodyFile with
  | Some f => try_catch (unlinkSync f) (fun _ => ret tt)
  | None => ret tt
  end.

(** [executeGitHubCommand(baseCommand, { title, body, cwd })]. *)
Definition executeGitHubCommand (baseCommand : string)
  (title body cwd' : option string) : M ExecOutput :=
  fun w0 =>
    let tempBodyFile :=
      if truthy_opt body then Some (tempBodyFileName w0) else None in
    try_finally
      (try_catch
         (finalCommand <-
            match tempBodyFile with
            | Some f =>
                writeFileSync f (dflt body EmptyString) ;;;
                ret (withBodyFile f baseCommand)
            | None => ret baseCommand
            end ;;
          exec (powerShellCommand (withTitle title finalCommand))
            (or_else cwd' (cwd E)))
         (fun error => throw (commandFailed error)))
      (cleanup tempBodyFile)
      w0.

(** [executeWithClearedTokens(command, cwd)]. *)
Definition executeWithClearedTokens (command : string) (cwd' : option string)
  : M ExecOutput :=
  try_catch
    (exec (powerShellCommand command) (or_else cwd' (cwd E)))
    (fun error => throw (commandFailed error)).

(** [getGit(workingDir)]: the handle is identified by its base directory;
    building it is a call into simple-git, which may throw. *)
Definition getGit (workingDir : option string) : M string :=
  let baseDir := or_else workingDir (cwd E) in
  call (EvSimpleGit baseDir) (fun w => simpleGit_ E w baseDir) ;;;
  ret baseDir.

(** [commitAndPush(files, commitMessage, branch, workingDir, dryRun)]. *)
Definition commitAndPush (files : list string) (commitMessage : string)
  (branch workingDir : option string) (dryRun : bool) : M WorkflowResult :=
  try_catch
    (git <- getGit workingDir ;;
     if dryRun then
       ret (mkResult true "Dry run: Would commit and push changes"
              (Some (CommitPreview files commitMessage branch workingDir))
              None)
     else
       isRepo <- call (EvCheckIsRepo git) (fun w => checkIsRepo_ E w git) ;;
       if negb isRepo then
         ret (mkResult false "Failed to commit and push" None
                (Some "Not a Git repository"))
       else
         call (EvStatus git) (fun w => status_ E w git) ;;;
         (* the branch step yields a result only when it returns early *)
         early <-
           (if truthy_opt branch then
              let b := dflt branch EmptyString in
              try_catch
                (call (EvCheckoutBranch git b "HEAD")
                   (fun w => checkoutBranch_ E w git b "HEAD") ;;;
                 ret None)
                (fun _ =>
                   try_catch
                     (call (EvCheckout git b) (fun w => checkout_ E w git b) ;;;
                      ret None)
                     (fun switchError =>
                        ret (Some
                          (mkResult false "Failed to commit and push" None
                             (Some ("Failed to create or switch to branch "
                                      ++ b ++ ": " ++ toString switchError))))))
            else ret None) ;;
         match early with
         | Some r => ret r
         | None =>
             let staged :=
               if (0 <? List.length files)%nat then files else ["."] in
             call (EvAdd git staged) (fun w => add_ E w git staged) ;;;
             commitResult <-
               call (EvCommit git commitMessage)
                 (fun w => commit_ E w git commitMessage) ;;
             currentBranch <-
               call (EvRevparse git ["--abbrev-ref"; "HEAD"])
                 (fun w => revparse_ E w git ["--abbrev-ref"; "HEAD"]) ;;
             call (EvPush git "origin" currentBranch)
               (fun w => push_ E w git "origin" currentBranch) ;;;
             ret (mkResult true "Successfully committed and pushed changes"
                    (Some (CommitDone (cr_commit commitResult) currentBranch
                             (cr_changes commitResult)
                             (cr_insertions commitResult)
                             (cr_deletions commitResult)))
                    None)
         end)
    (fun error =>
       ret (mkResult false "Failed to commit and push" None
              (Some (e_message error)))).

(** [createPullRequest(title, body, baseBranch = 'main', headBranch,
    workingDir, dryRun)]. *)
Definition createPullRequest (title body : string)
  (baseBranch headBranch workingDir : option string) (dryRun : bool)
  : M WorkflowResult :=
  let baseBranch := dflt baseBranch "main" in
  try_catch
    (if dryRun then
       ret (mkResult true "Dry run: Would create pull request"
              (Some (PullRequestPreview title body baseBranch headBranch))
              None)
     else
       headBranch' <-
         (if negb (truthy_opt headBranch) then
            git <- getGit workingDir ;;
            call (EvRevparse git ["--abbrev-ref"; "HEAD"])
              (fun w => revparse_ E w git ["--abbrev-ref"; "HEAD"])
          else ret (dflt headBranch EmptyString)) ;;
       let command := createCommand title body baseBranch headBranch' in
       result <-
         executeGitHubCommand command (Some title) (Some body) workingDir ;;
       let prUrl := trim (stdout result) in
       ret (mkResult true "Successfully created pull request"
              (Some (PullRequestDone prUrl title baseBranch headBranch'))
              None))
    (fun error =>
       ret (mkResult false "Failed to create pull request" None
              (Some ("Failed to create pull request: " ++ e_message error)))).

(** [mergePullRequest(prNumber, mergeMethod = 'merge', deleteBranch = true,
    workingDir, dryRun)]. *)
Definition mergePullRequest (prNumber : string)
  (mergeMethod : option MergeMethod) (deleteBranch : option bool)
  (workingDir : option string) (dryRun : bool) : M WorkflowResult :=
  let mergeMethod := dflt mergeMethod Merge in
  let deleteBranch := dflt deleteBranch true in
  try_catch
    (if dryRun then
       ret (mkResult true "Dry run: Would merge pull request"
              (Some (MergePreview prNumber mergeMethod deleteBranch)) None)
     else
       let command := mergeCommand prNumber mergeMethod deleteBranch in
       result <- executeWithClearedTokens command workingDir ;;
       ret (mkResult true "Successfully merged pull request"
              (Some (MergeDone prNumber mergeMethod (stdout result))) None))
    (fun error =>
       ret (mkResult false "Failed to merge pull request" None
              (Some ("Failed to merge pull request: " ++ e_message error)))).

(** The merge step of the composite: taken when [autoMerge] holds, the
    pull-request result carries a truthy URL and the URL matches. *)
Definition autoMergeStep (autoMerge : bool) (prResult : WorkflowResult)
  (workingDir : option string) : M (option WorkflowResult) :=
  if autoMerge && truthy_opt (details_url (details prResult)) then
    match search re_pull (dflt (details_url (details prResult)) EmptyString) with
    | Some prMatch =>
        let prNumber := group1 prMatch in
        r <- mergePullRequest prNumber (Some Merge) (Some true) workingDir false ;;
        ret (Some r)
    | None => ret None
    end
  else ret None.

(** [completeGitWorkflow(files, commitMessage, prTitle, prBody, branch,
    baseBranch = 'main', autoMerge, workingDir, dryRun)]. *)
Definition completeGitWorkflow (files : list string)
  (commitMessage prTitle prBody : string) (branch baseBranch : option string)
  (autoMerge : bool) (workingDir : option string) (dryRun : bool)
  : M WorkflowResult :=
  let baseBranch := dflt baseBranch "main" in
  try_catch
    (if dryRun then
       ret (mkResult true "Dry run: Would execute complete Git workflow"
              (Some (WorkflowPreview files commitMessage prTitle prBody
                       branch baseBranch autoMerge))
              None)
     else
       commitResult <- commitAndPush files commitMessage branch workingDir false ;;
       if negb (success commitResult) then ret commitResult
       else
         prResult <-
           createPullRequest prTitle prBody (Some baseBranch) branch
             workingDir false ;;
         if negb (success prResult) then ret prResult
         else
           mergeResult <- autoMergeStep autoMerge prResult workingDir ;;
           ret (mkResult true "Successfully completed Git workflow"
                  (Some (WorkflowDone (details commitResult)
                           (details prResult)
                           (match mergeResult with
                            | Some r => details r
                            | None => None
                            end)))
                  None))
    (fun error =>
       ret (mkResult false "Git workflow failed" None
              (Some ("Git workflow failed: " ++ e_message error)))).

End Operations.

End Workflow.

(* ===================================================================== *)
(** ** Vocabulary of the properties *)
(* ===================================================================== *)

Module Spec.
Import Js Regex Host Workflow.

(** The URL shape the merge step looks for: a literal [/pull/] followed by
    one or more digits that run to the end of the string. *)
Definition pull_url (url number : string) : Prop :=
  exists pre,
    url = pre ++ "/pull/" ++ number
    /\ number <> EmptyString
    /\ all_chars is_digit number = true.

(** The pattern [r] matches at no position inside [pre] when [pre] is
    followed by [s]. *)
Definition skips (r : regex) (pre s : string) : Prop :=
  forall a b, pre = a ++ b -> b <> EmptyString ->
    matchHere r (b ++ s) None (b ++ s) = None.

(** The four tools and their arguments. *)
Inductive Invocation : Type :=
| CommitAndPush (files : list string) (commitMessage : string)
    (branch workingDir : option string) (dryRun : bool)
| CreatePullRequest (title body : string)
    (baseBranch headBranch workingDir : option string) (dryRun : bool)
| MergePullRequest (prNumber : string) (mergeMethod : option MergeMethod)
    (deleteBranch : option bool) (workingDir : option string) (dryRun : bool)
| CompleteWorkflow (files : list string)
    (commitMessage prTitle prBody : string) (branch baseBranch : option string)
    (autoMerge : bool) (workingDir : option string) (dryRun : bool).

Definition run (E : Env) (i : Invocation) : M WorkflowResult :=
  match i with
  | CommitAndPush f m b d dry => commitAndPush E f m b d dry
  | CreatePullRequest t b base head d dry => createPullRequest E t b base head d dry
  | MergePullRequest n m del d dry => mergePullRequest E n m del d dry
  | CompleteWorkflow f m t b br base auto d dry =>
      completeGitWorkflow E f m t b br base auto d dry
  end.

(** The [dryRun] argument of an invocation, and the result a dry run is
    meant to give: success, with the arguments echoed in [details]. *)
Definition dry (i : Invocation) : bool :=
  match i with
  | CommitAndPush _ _ _ _ d | CreatePullRequest _ _ _ _ _ d
  | MergePullRequest _ _ _ _ d | CompleteWorkflow _ _ _ _ _ _ _ _ d => d
  end.

Definition preview (i : Invocation) : WorkflowResult :=
  match i with
  | CommitAndPush f m b d _ =>
      mkResult true "Dry run: Would commit and push changes"
        (Some (CommitPreview f m b d)) None
  | CreatePullRequest t b base head _ _ =>
      mkResult true "Dry run: Would create pull request"
        (Some (PullRequestPreview t b (dflt base "main") head)) None
  | MergePullRequest n m del _ _ =>
      mkResult true "Dry run: Would merge pull request"
        (Some (MergePreview n (dflt m Merge) (dflt del true))) None
  | CompleteWorkflow f m t b br base auto _ _ =>
      mkResult true "Dry run: Would execute complete Git workflow"
        (Some (WorkflowPreview f m t b br (dflt base "main") auto)) None
  end.

(** Does the invocation go through [commitAndPush]? *)
Definition commits (i : Invocation) : bool :=
  match i with
  | CommitAndPush _ _ _ _ _ | CompleteWorkflow _ _ _ _ _ _ _ _ _ => true
  | _ => false
  end.

(** The invariant of [WorkflowResult] as the specification words it. *)
Definition stated_invariant (r : WorkflowResult) : Prop :=
  (success r = false <-> exists e, error r = Some e /\ e <> EmptyString)
  /\ (success r = false -> details r = None).

(** The part of the invariant that does not depend on what the error text
    is: an error is present exactly on failure, and a failure has no
    details. *)
Definition failure_shape (r : WorkflowResult) : Prop :=
  (success r = false <-> error r <> None)
  /\ (success r = false -> details r = None).

(** The version-control collaborator never throws an error whose message is
    empty. *)
Definition git_errors_described (E : Env) : Prop :=
  (forall w d e, simpleGit_ E w d = Threw e -> e_message e <> EmptyString)
  /\ (forall w d e, checkIsRepo_ E w d = Threw e -> e_message e <> EmptyString)
  /\ (forall w d e, status_ E w d = Threw e -> e_message e <> EmptyString)
  /\ (forall w d f e, add_ E w d f = Threw e -> e_message e <> EmptyString)
  /\ (forall w d m e, commit_ E w d m = Threw e -> e_message e <> EmptyString)
  /\ (forall w d a e, revparse_ E w d a = Threw e -> e_message e <> EmptyString)
  /\ (forall w d r b e, push_ E w d r b = Threw e -> e_message e <> EmptyString).

(** The world in which the branch step of [commitAndPush] starts: the
    handle was built, the validity check and the status query were made. *)
Definition entered (E : Env) (workingDir : option string) (w : World) : World :=
  let dir := or_else workingDir (cwd E) in
  log (EvStatus dir) (log (EvCheckIsRepo dir) (log (EvSimpleGit dir) w)).

(** The working directory holds a repository in working order: the handle
    can be built, the validity check answers yes, the status query returns. *)
Definition ready_repository (E : Env) (workingDir : option string) (w : World)
  : Prop :=
  let dir := or_else workingDir (cwd E) in
  simpleGit_ E w dir = Returned tt
  /\ checkIsRepo_ E (log (EvSimpleGit dir) w) dir = Returned true
  /\ status_ E (log (EvCheckIsRepo dir) (log (EvSimpleGit dir) w)) dir
     = Returned tt.

(** Removing an existing file never fails. *)
Definition reliable_unlink (E : Env) : Prop :=
  forall w p, unlink_ E w p = Returned tt.

Definition is_checkout (ev : Event) : bool :=
  match ev with
  | EvCheckoutBranch _ _ _ | EvCheckout _ _ => true
  | _ => false
  end.

(** The environment [E] with another answer to file removal, and nothing
    else changed. *)
Definition with_unlink (E : Env) (u : World -> string -> Result unit) : Env :=
  mkEnv (cwd E) (tmpdir E) (join E) (now E) (simpleGit_ E) (checkIsRepo_ E)
    (status_ E) (checkoutBranch_ E) (checkout_ E) (add_ E) (commit_ E)
    (revparse_ E) (push_ E) (exec_ E) (writeFile_ E) u.

End Spec.

(* ===================================================================== *)
(** ** Concrete environments *)
(* ===================================================================== *)

Module Scenarios.
Import Js Regex Host Workflow.

Definition w0 : World := mkWorld [] [].

(** An environment in which everything goes through unless said otherwise:
    [sg] answers the handle construction, [repo] the validity check,
    [co] both checkout calls, [ex] the child process, [ul] file removal. *)
Definition scenario (sg : Result unit) (repo : Result bool) (co : Result unit)
  (ex : string -> Result ExecOutput) (ul : Result unit) : Env :=
  mkEnv "/repo" "/tmp" (fun a b => a ++ "/" ++ b) (fun _ => 1700000000000%N)
    (fun _ _ => sg) (fun _ _ => repo) (fun _ _ => Returned tt)
    (fun _ _ _ _ => co) (fun _ _ _ => co) (fun _ _ _ => Returned tt)
    (fun _ _ _ => Returned (mkCommitResult "abc123" 1 2 3))
    (fun _ _ _ => Returned "feature")
    (fun _ _ _ _ => Returned tt)
    (fun _ c _ => ex c)
    (fun _ _ _ => Returned tt) (fun _ _ => ul).

Definition prints (out : string) (c : string) : Result ExecOutput :=
  Returned (mkExecOutput out EmptyString).

Definition ok : Result unit := Returned tt.

(** The hosting CLI prints the URL of pull request 42. *)
Definition quiet : Env :=
  scenario ok (Returned true) ok
    (prints ("https://github.com/org/repo/pull/42" ++ nl)) ok.

(** The hosting CLI prints a URL of another shape. *)
Definition odd_url : Env :=
  scenario ok (Returned true) ok
    (prints ("https://example.com/org/repo/issues/42" ++ nl)) ok.

(** The validity check throws an error without a message. *)
Definition mute : Env :=
  scenario ok (Threw (Error EmptyString)) ok (prints EmptyString) ok.

(** The working directory does not exist: simple-git refuses to build a
    handle for it. *)
Definition no_dir : Env :=
  scenario
    (Threw (mkError "GitConstructError"
              "Cannot use simple-git on a directory that does not exist"
              None None))
    (Returned false) ok (prints EmptyString) ok.

(** The directory is not a repository. *)
Definition no_repo : Env :=
  scenario ok (Returned false) ok (prints EmptyString) ok.

(** The branch can be neither created nor switched to. *)
Definition stuck_branch : Env :=
  scenario ok (Returned true)
    (Threw (Error "pathspec 'topic' did not match")) (prints EmptyString) ok.

Definition cli_failure : JsError :=
  mkError "Error" "Command failed: gh" (Some EmptyString) (Some "no auth").

(** Every command of the hosting CLI fails. *)
Definition cli_down : Env :=
  scenario ok (Returned true) ok (fun _ => Threw cli_failure) ok.

(** Creating the pull request works, merging it fails. *)
Definition merge_down : Env :=
  scenario ok (Returned true) ok
    (fun c =>
       if includes "gh pr merge" c then Threw cli_failure
       else prints ("https://github.com/org/repo/pull/42" ++ nl) c)
    ok.

(** The temporary file cannot be removed (it is held open elsewhere). *)
Definition busy_file : Env :=
  scenario ok (Returned true) ok
    (prints ("https://github.com/org/repo/pull/42" ++ nl))
    (Threw (Error "EBUSY: resource busy or locked, unlink")).

(** The usual arguments and what the steps leave behind in [quiet] and its
    variants. *)
Definition body_file : string := "/tmp/gh-pr-body-1700000000000.txt".

Definition url42 : string := "https://github.com/org/repo/pull/42".
Definition issue42 : string := "https://example.com/org/repo/issues/42".

Definition committed : WorkflowResult :=
  mkResult true "Successfully committed and pushed changes"
    (Some (CommitDone "abc123" "feature" 1 2 3)) None.

Definition commit_events : list Event :=
  [EvSimpleGit "/repo"; EvCheckIsRepo "/repo"; EvStatus "/repo";
   EvAdd "/repo" ["a.txt"]; EvCommit "/repo" "fix: typo";
   EvRevparse "/repo" ["--abbrev-ref"; "HEAD"];
   EvPush "/repo" "origin" "feature"].

Definition created (url : string) : WorkflowResult :=
  mkResult true "Successfully created pull request"
    (Some (PullRequestDone url "Title" "main" "feature")) None.

Definition create_command : string :=
  powerShellCommand
    ("gh pr create --title 'Title' --body-file " ++ dq ++ body_file ++ dq
       ++ " --base main --head feature").

Definition create_events : list Event :=
  [EvSimpleGit "/repo"; EvRevparse "/repo" ["--abbrev-ref"; "HEAD"];
   EvWriteFile body_file "Body"; EvExec create_command "/repo";
   EvUnlink body_file].

Definition create_failed : WorkflowResult :=
  mkResult false "Failed to create pull request" None
    (Some ("Failed to create pull request: Command failed: Command failed: gh"
             ++ nl ++ "Stdout: " ++ nl ++ "Stderr: no auth")).

Definition merge_command : string :=
  powerShellCommand "gh pr merge 42 --merge --delete-branch".

Definition merge_failed : WorkflowResult :=
  mkResult false "Failed to merge pull request" None
    (Some ("Failed to merge pull request: Command failed: Command failed: gh"
             ++ nl ++ "Stdout: " ++ nl ++ "Stderr: no auth")).

Definition workflow_done (url : string) (merge : option Details)
  : WorkflowResult :=
  mkResult true "Successfully completed Git workflow"
    (Some (WorkflowDone (details committed) (details (created url)) merge))
    None.

(** A body and a title that contain a double quote. *)
Definition quoted_body : string := "x" ++ dq ++ "; calc; " ++ dq.
Definition quoted_title : string := "a" ++ dq ++ "; calc; " ++ dq.

End Scenarios.

(* ===================================================================== *)
(** ** The request handlers *)
(* ===================================================================== *)

Module Server.
Import Js Regex Host Workflow.

(** *** The tool listing ([ListToolsRequestSchema]) *)

(** The default values the schemas declare. *)
Inductive Json : Type :=
| JBool (b : bool)
| JString (s : string).

(** One entry of [properties]: its key, [type], [items.type] for arrays,
    [enum], [description] and [default]. *)
Record Property : Type := mkProperty {
  p_name : string;
  p_type : string;
  p_items : option string;
  p_enum : list string;
  p_description : string;
  p_default : option Json
}.

Record Tool : Type := mkTool {
  t_name : string;
  t_description : string;
  t_properties : list Property;
  t_required : list string
}.

Definition plain (name type description : string) : Property :=
  mkProperty name type None [] description None.

Definition workingDirProperty (description : string) : Property :=
  plain "workingDir" "string" description.

Definition dryRunProperty (description : string) : Property :=
  mkProperty "dryRun" "boolean" None [] description (Some (JBool false)).

Definition listTools : list Tool :=
  [ mkTool "git_commit_and_push"
      "Commit staged changes and push to remote repository"
      [ mkProperty "files" "array" (Some "string") []
          "Array of file paths to commit (empty for all changes)" None;
        plain "commitMessage" "string"
          "Commit message (use conventional commit format)";
        plain "branch" "string" "Branch name to create/switch to (optional)";
        workingDirProperty
          "Working directory path (defaults to current directory)";
        dryRunProperty "Preview changes without executing" ]
      ["commitMessage"];
    mkTool "create_pull_request"
      "Create a GitHub pull request with proper authentication handling"
      [ plain "title" "string" "Pull request title";
        plain "body" "string" "Pull request description";
        mkProperty "baseBranch" "string" None [] "Base branch (target)"
          (Some (JString "main"));
        plain "headBranch" "string"
          "Head branch (source, defaults to current branch)";
        workingDirProperty "Working directory path";
        dryRunProperty "Preview without executing" ]
      ["title"; "body"];
    mkTool "merge_pull_request"
      "Merge a GitHub pull request"
      [ plain "prNumber" "string" "Pull request number";
        mkProperty "mergeMethod" "string" None ["merge"; "squash"; "rebase"]
          "Merge method" (Some (JString "merge"));
        mkProperty "deleteBranch" "boolean" None []
          "Delete branch after merge" (Some (JBool true));
        workingDirProperty "Working directory path";
        dryRunProperty "Preview without executing" ]
      ["prNumber"];
    mkTool "complete_git_workflow"
      "Execute complete Git workflow: commit, push, create PR, and optionally merge"
      [ mkProperty "files" "array" (Some "string") [] "Files to commit" None;
        plain "commitMessage" "string" "Commit message (conventional format)";
        plain "prTitle" "string" "Pull request title";
        plain "prBody" "string" "Pull request description";
        plain "branch" "string" "Feature branch name";
        mkProperty "baseBranch" "string" None [] "Base branch"
          (Some (JString "main"));
        mkProperty "autoMerge" "boolean" None []
          "Automatically merge PR after creation" (Some (JBool false));
        workingDirProperty "Working directory path";
        dryRunProperty "Preview without executing" ]
      ["commitMessage"; "prTitle"; "prBody"] ].

(** *** The tool call ([CallToolRequestSchema]) *)

(** The argument bag, each key read at the type the handler casts it to;
    [None] is a key that is absent. *)
Record Args : Type := mkArgs {
  a_files : option (list string);
  a_commitMessage : option string;
  a_branch : option string;
  a_workingDir : option string;
  a_dryRun : option bool;
  a_title : option string;
  a_body : option string;
  a_baseBranch : option string;
  a_headBranch : option string;
  a_prNumber : option string;
  a_mergeMethod : option MergeMethod;
  a_deleteBranch : option bool;
  a_prTitle : option string;
  a_prBody : option string;
  a_autoMerge : option bool
}.

(** A required argument read through its cast.  The operations take it as
    a string; a call that leaves it out is outside this model, and the
    properties that depend on its value assume that it is there. *)
Definition given (o : option string) : string := dflt o EmptyString.

(** What is handed to [JSON.stringify]: a [WorkflowResult], or the object
    of the catch-all, which has [success: false] and [error] only. *)
Inductive Payload : Type :=
| ResultPayload (result : WorkflowResult)
| ErrorPayload (error : string).

(** The response: one text item, the serialized payload, and [isError]
    (absent counts as false). *)
Record Response : Type := mkResponse {
  content : Payload;
  isError : bool
}.

Section Handler.

Variable E : Env.

(** The [switch] on the tool name, with the defaults it applies. *)
Definition dispatch (name : string) (args : Args) : M WorkflowResult :=
  if String.eqb name "git_commit_and_push" then
    commitAndPush E (dflt (a_files args) []) (given (a_commitMessage args))
      (a_branch args) (a_workingDir args) (dflt (a_dryRun args) false)
  else if String.eqb name "create_pull_request" then
    createPullRequest E (given (a_title args)) (given (a_body args))
      (Some (or_else (a_baseBranch args) "main")) (a_headBranch args)
      (a_workingDir args) (dflt (a_dryRun args) false)
  else if String.eqb name "merge_pull_request" then
    mergePullRequest E (given (a_prNumber args))
      (Some (dflt (a_mergeMethod args) Merge))
      (Some (dflt (a_deleteBranch args) true))
      (a_workingDir args) (dflt (a_dryRun args) false)
  else if String.eqb name "complete_git_workflow" then
    completeGitWorkflow E (dflt (a_files args) [])
      (given (a_commitMessage args)) (given (a_prTitle args))
      (given (a_prBody args)) (a_branch args)
      (Some (or_else (a_baseBranch args) "main"))
      (dflt (a_autoMerge args) false)
      (a_workingDir args) (dflt (a_dryRun args) false)
  else throw (Error ("Unknown tool: " ++ name)).

(** The handler of a tool call. *)
Definition callTool (name : string) (args : Args) : M Response :=
  try_catch
    (bind (dispatch name args)
       (fun result => ret (mkResponse (ResultPayload result) false)))
    (fun error => ret (mkResponse (ErrorPayload (e_message error)) true)).

End Handler.

End Server.

(* ===================================================================== *)
(** ** Further vocabulary *)
(* ===================================================================== *)

Module Props.
Import Js Regex Host Workflow Spec Server.

(** *** Escaping *)

(** What escaping does to one code unit. *)
Definition escapeChar (c : ascii) : string :=
  if Ascii.eqb c "'" then "''"
  else if Ascii.eqb c "`" then "``"
  else if Ascii.eqb c "$" then "`$"
  else if Ascii.eqb c (ascii_of_nat 34) then dq ++ dq
  else String c EmptyString.

Fixpoint escapeEach (s : string) : string :=
  match s with
  | EmptyString => EmptyString
  | String c r => escapeChar c ++ escapeEach r
  end.


(** Reading an escaped text back, used to show that escaping loses
    nothing. *)
Fixpoint unescapeEach (s : string) : string :=
  match s with
  | EmptyString => EmptyString
  | String c r =>
      if Ascii.eqb c "'" || Ascii.eqb c "`" || Ascii.eqb c (ascii_of_nat 34)
      then
        match r with
        | String d r' => String d (unescapeEach r')
        | EmptyString => String c EmptyString
        end
      else String c (unescapeEach r)
  end.

(** *** White space at the ends *)

Definition first_char (s : string) : option ascii :=
  match s with
  | EmptyString => None
  | String c _ => Some c
  end.

Fixpoint last_char (s : string) : option ascii :=
  match s with
  | EmptyString => None
  | String c EmptyString => Some c
  | String _ r => last_char r
  end.

Definition no_space (o : option ascii) : bool :=
  match o with
  | Some c => negb (is_space c)
  | None => true
  end.

(** No white space at either end. *)
Definition trimmed (s : string) : bool :=
  no_space (first_char s) && no_space (last_char s).

(** *** The log *)

(** The world after a series of calls that leave the files alone. *)
Definition logs (evs : list Event) (w : World) : World :=
  fold_left (fun v ev => log ev v) evs w.

(** The place of a call in the course of [commitAndPush]. *)
Definition rank (ev : Event) : nat :=
  match ev with
  | EvSimpleGit _ => 0
  | EvCheckIsRepo _ => 1
  | EvStatus _ => 2
  | EvCheckoutBranch _ _ _ => 3
  | EvCheckout _ _ => 4
  | EvAdd _ _ => 5
  | EvCommit _ _ => 6
  | EvRevparse _ _ => 7
  | EvPush _ _ _ => 8
  | EvWriteFile _ _ | EvUnlink _ | EvExec _ _ => 9
  end.

Fixpoint ascending (l : list nat) : bool :=
  match l with
  | a :: ((b :: _) as r) => (a <? b)%nat && ascending r
  | _ => true
  end.

Definition is_git (ev : Event) : bool := (rank ev <? 9)%nat.

Definition is_exec (ev : Event) : bool :=
  match ev with
  | EvExec _ _ => true
  | _ => false
  end.

(** A call that stays in the directory [dir] and, when it runs a command,
    runs it behind the wrapper that clears the token variables. *)
Definition proper (dir : string) (ev : Event) : Prop :=
  match ev with
  | EvSimpleGit d | EvCheckIsRepo d | EvStatus d | EvCheckoutBranch d _ _
  | EvCheckout d _ | EvAdd d _ | EvCommit d _ | EvRevparse d _
  | EvPush d _ _ => d = dir
  | EvExec c d => d = dir /\ exists c0, c = powerShellCommand c0
  | EvWriteFile _ _ | EvUnlink _ => True
  end.

(** The [workingDir] argument of an invocation. *)
Definition workingDir_of (i : Invocation) : option string :=
  match i with
  | CommitAndPush _ _ _ d _ | CreatePullRequest _ _ _ _ d _
  | MergePullRequest _ _ _ d _ | CompleteWorkflow _ _ _ _ _ _ _ d _ => d
  end.

(** *** Tool calls *)

(** Is the name one of the listed tools? *)
Definition listed (name : string) : bool :=
  existsb (fun t => String.eqb name (t_name t)) listTools.

Definition is_some {A : Type} (o : option A) : bool :=
  match o with Some _ => true | None => false end.

(** Is the key present in the argument bag? *)
Definition present (args : Args) (key : string) : bool :=
  if String.eqb key "files" then is_some (a_files args)
  else if String.eqb key "commitMessage" then is_some (a_commitMessage args)
  else if String.eqb key "branch" then is_some (a_branch args)
  else if String.eqb key "workingDir" then is_some (a_workingDir args)
  else if String.eqb key "dryRun" then is_some (a_dryRun args)
  else if String.eqb key "title" then is_some (a_title args)
  else if String.eqb key "body" then is_some (a_body args)
  else if String.eqb key "baseBranch" then is_some (a_baseBranch args)
  else if String.eqb key "headBranch" then is_some (a_headBranch args)
  else if String.eqb key "prNumber" then is_some (a_prNumber args)
  else if String.eqb key "mergeMethod" then is_some (a_mergeMethod args)
  else if String.eqb key "deleteBranch" then is_some (a_deleteBranch args)
  else if String.eqb key "prTitle" then is_some (a_prTitle args)
  else if String.eqb key "prBody" then is_some (a_prBody args)
  else if String.eqb key "autoMerge" then is_some (a_autoMerge args)
  else false.

(** The bag with a declared default written into it under [key]. *)
Definition with_default (key : string) (d : Json) (args : Args) : Args :=
  match d with
  | JBool b =>
      if String.eqb key "dryRun" then
        mkArgs (a_files args) (a_commitMessage args) (a_branch args)
          (a_workingDir args) (Some b) (a_title args) (a_body args)
          (a_baseBranch args) (a_headBranch args) (a_prNumber args)
          (a_mergeMethod args) (a_deleteBranch args) (a_prTitle args)
          (a_prBody args) (a_autoMerge args)
      else if String.eqb key "deleteBranch" then
        mkArgs (a_files args) (a_commitMessage args) (a_branch args)
          (a_workingDir args) (a_dryRun args) (a_title args) (a_body args)
          (a_baseBranch args) (a_headBranch args) (a_prNumber args)
          (a_mergeMethod args) (Some b) (a_prTitle args)
          (a_prBody args) (a_autoMerge args)
      else if String.eqb key "autoMerge" then
        mkArgs (a_files args) (a_commitMessage args) (a_branch args)
          (a_workingDir args) (a_dryRun args) (a_title args) (a_body args)
          (a_baseBranch args) (a_headBranch args) (a_prNumber args)
          (a_mergeMethod args) (a_deleteBranch args) (a_prTitle args)
          (a_prBody args) (Some b)
      else args
  | JString s =>
      if String.eqb key "baseBranch" then
        mkArgs (a_files args) (a_commitMessage args) (a_branch args)
          (a_workingDir args) (a_dryRun args) (a_title args) (a_body args)
          (Some s) (a_headBranch args) (a_prNumber args)
          (a_mergeMethod args) (a_deleteBranch args) (a_prTitle args)
          (a_prBody args) (a_autoMerge args)
      else if String.eqb key "mergeMethod" then
        mkArgs (a_files args) (a_commitMessage args) (a_branch args)
          (a_workingDir args) (a_dryRun args) (a_title args) (a_body args)
          (a_baseBranch args) (a_headBranch args) (a_prNumber args)
          (if String.eqb s "squash" then Some Squash
           else if String.eqb s "rebase" then Some Rebase
           else if String.eqb s "merge" then Some Merge
           else a_mergeMethod args)
          (a_deleteBranch args) (a_prTitle args)
          (a_prBody args) (a_autoMerge args)
      else args
  end.

(** An argument bag with nothing in it. *)
Definition no_args : Args :=
  mkArgs None None None None None None None None None None None None None
    None None.

(** Every key the listing requires of the tool [name] is present. *)
Definition has_required (name : string) (args : Args) : bool :=
  forallb
    (fun t =>
       negb (String.eqb name (t_name t))
       || forallb (present args) (t_required t))
    listTools.

(** A computation that, from any world, only adds calls that are [proper]
    for the directory to the trace. *)
Definition tracks {A : Type} (dir : string) (c : M A) : Prop :=
  forall w, exists evs,
    trace (snd (c w)) = (trace w ++ evs)%list /\ Forall (proper dir) evs.

End Props.

(* ===================================================================== *)
(** ** Facts about strings *)
(* ===================================================================== *)

Module JsFacts.
Import Js.

Lemma app_assoc (a b c : string) : (a ++ b) ++ c = a ++ (b ++ c).
Proof. induction a as [|x a IH]; simpl; [reflexivity | now rewrite IH]. Qed.

Lemma app_nil_r (a : string) : a ++ EmptyString = a.
Proof. induction a as [|x a IH]; simpl; [reflexivity | now rewrite IH]. Qed.

Lemma length_app (a b : string) :
  String.length (a ++ b) = String.length a + String.length b.
Proof. induction a as [|x a IH]; simpl; [reflexivity | now rewrite IH]. Qed.

Lemma app_inv_tail (a b c : string) : a ++ c = b ++ c -> a = b.
Proof.
  revert b; induction a as [|x a IH]; intros [|y b] H; simpl in H.
  - reflexivity.
  - apply (f_equal String.length) in H; simpl in H.
    rewrite length_app in H; lia.
  - apply (f_equal String.length) in H; simpl in H.
    rewrite length_app in H; lia.
  - inversion H; subst; f_equal; apply IH; assumption.
Qed.

Lemma take_app (a b : string) : take (String.length a) (a ++ b) = a.
Proof. induction a as [|x a IH]; simpl; [now destruct b | now rewrite IH]. Qed.

Lemma take_all (a : string) : take (String.length a) a = a.
Proof. rewrite <- (app_nil_r a) at 2; apply take_app. Qed.

Lemma strip_prefix_app (p r : string) : strip_prefix p (p ++ r) = Some r.
Proof.
  induction p as [|x p IH]; simpl; [reflexivity|].
  now rewrite Ascii.eqb_refl.
Qed.

Lemma strip_prefix_sound (p s r : string) :
  strip_prefix p s = Some r -> s = p ++ r.
Proof.
  revert s; induction p as [|x p IH]; intros s H; simpl in H.
  - now inversion H.
  - destruct s as [|y s]; [discriminate|].
    destruct (Ascii.eqb x y) eqn:Exy; [|discriminate].
    apply Ascii.eqb_eq in Exy; subst y; simpl; f_equal; now apply IH.
Qed.

(** *** [trim] *)

Lemma trimEnd_app (a b : string) :
  trimEnd b <> EmptyString -> trimEnd (a ++ b) = a ++ trimEnd b.
Proof.
  intros Hb; induction a as [|x a IH]; simpl; [reflexivity|].
  rewrite IH. destruct (a ++ trimEnd b) eqn:Eab; [|reflexivity].
  destruct a; simpl in Eab; [contradiction | discriminate].
Qed.

(** *** [includes] *)

Lemma includes_unfold (n s : string) :
  includes n s =
  match strip_prefix n s with
  | Some _ => true
  | None => match s with
            | EmptyString => false
            | String _ s' => includes n s'
            end
  end.
Proof. destruct s; reflexivity. Qed.

Lemma includes_here (n r : string) : includes n (n ++ r) = true.
Proof. now rewrite includes_unfold, strip_prefix_app. Qed.

Lemma includes_skip (n a s : string) :
  includes n s = true -> includes n (a ++ s) = true.
Proof.
  intros H; induction a as [|x a IH]; simpl; [assumption|].
  now destruct (strip_prefix n (String x (a ++ s))).
Qed.

Lemma includes_app_r (n a s : string) : includes n (a ++ n ++ s) = true.
Proof. apply includes_skip, includes_here. Qed.

(** A needle without the separator cannot straddle it. *)
Lemma strip_prefix_sep (n a b : string) (sep : ascii) :
  all_chars (not_char sep) n = true ->
  strip_prefix n (a ++ String sep b) <> None ->
  strip_prefix n a <> None.
Proof.
  revert a; induction n as [|x n IH]; intros a Hn H; simpl in *.
  - discriminate.
  - apply andb_prop in Hn as [Hx Hn].
    destruct a as [|y a]; simpl in H.
    + unfold not_char in Hx. rewrite Ascii.eqb_sym in Hx.
      destruct (Ascii.eqb x sep); [discriminate | contradiction].
    + destruct (Ascii.eqb x y); [now apply IH | contradiction].
Qed.

Lemma includes_sep (n a b : string) (sep : ascii) :
  all_chars (not_char sep) n = true -> n <> EmptyString ->
  includes n (a ++ String sep b) = includes n a || includes n b.
Proof.
  intros Hn Hne.
  assert (Hsep : forall r, strip_prefix n (String sep r) = None).
  { intros r. destruct n as [|x n]; [contradiction|].
    simpl in Hn |- *. apply andb_prop in Hn as [Hx _].
    unfold not_char in Hx. rewrite Ascii.eqb_sym in Hx.
    now destruct (Ascii.eqb x sep). }
  assert (Hnil : strip_prefix n EmptyString = None).
  { destruct n; [contradiction | reflexivity]. }
  induction a as [|y a IH].
  - change (EmptyString ++ String sep b) with (String sep b).
    rewrite (includes_unfold n (String sep b)), (includes_unfold n EmptyString).
    now rewrite Hsep, Hnil.
  - change (String y a ++ String sep b) with (String y (a ++ String sep b)).
    rewrite (includes_unfold n (String y (a ++ String sep b))).
    rewrite (includes_unfold n (String y a)).
    destruct (strip_prefix n (String y (a ++ String sep b))) eqn:E1.
    + assert (H : strip_prefix n (String y a) <> None).
      { apply (strip_prefix_sep n (String y a) b sep Hn).
        change (String y a ++ String sep b) with (String y (a ++ String sep b)).
        rewrite E1; discriminate. }
      destruct (strip_prefix n (String y a)); [reflexivity | contradiction].
    + destruct (strip_prefix n (String y a)) eqn:E2; [|exact IH].
      apply strip_prefix_sound in E2.
      change (String y (a ++ String sep b)) with (String y a ++ String sep b) in E1.
      rewrite E2, app_assoc, strip_prefix_app in E1. discriminate.
Qed.

Lemma all_chars_app (p : ascii -> bool) (a b : string) :
  all_chars p (a ++ b) = all_chars p a && all_chars p b.
Proof.
  induction a as [|x a IH]; simpl; [reflexivity|].
  now rewrite IH, andb_assoc.
Qed.

Lemma includes_suffix (l a b : string) :
  includes l (a ++ b) = false -> strip_prefix l b = None.
Proof.
  intros H. destruct (strip_prefix l b) eqn:E; [|reflexivity].
  assert (includes l (a ++ b) = true); [|congruence].
  apply includes_skip. now rewrite includes_unfold, E.
Qed.

End JsFacts.

(* ===================================================================== *)
(** ** Facts about the patterns *)
(* ===================================================================== *)

Module RegexFacts.
Import Js Regex JsFacts Spec.

Lemma all_chars_impl (p q : ascii -> bool) (s : string) :
  (forall c, p c = true -> q c = true) ->
  all_chars p s = true -> all_chars q s = true.
Proof.
  intros Hpq; induction s as [|c s IH]; simpl; [reflexivity|].
  intros H; apply andb_prop in H as [Hc Hs].
  now rewrite (Hpq c Hc), IH.
Qed.

Lemma digit_not_slash (c : ascii) : is_digit c = true -> not_char "/" c = true.
Proof.
  unfold not_char; intros H.
  destruct (Ascii.eqb "/" c) eqn:E; [|reflexivity].
  apply Ascii.eqb_eq in E; subst c; discriminate.
Qed.

Lemma afterLast_none (c : ascii) (s : string) :
  all_chars (not_char c) s = true -> afterLast c s = None.
Proof.
  induction s as [|a s IH]; simpl; [reflexivity|].
  intros H; apply andb_prop in H as [Ha Hs].
  rewrite (IH Hs). unfold not_char in Ha. rewrite Ascii.eqb_sym.
  now destruct (Ascii.eqb c a).
Qed.

Lemma afterLast_app (c : ascii) (a t : string) :
  all_chars (not_char c) t = true -> afterLast c (a ++ String c t) = Some t.
Proof.
  intros Ht; induction a as [|x a IH]; simpl.
  - now rewrite (afterLast_none c t Ht), Ascii.eqb_refl.
  - now rewrite IH.
Qed.

(** A URL has at most one decomposition of the shape [pull_url] asks for. *)
Lemma pull_url_unique (pre1 pre2 n1 n2 : string) :
  all_chars is_digit n1 = true -> all_chars is_digit n2 = true ->
  pre1 ++ "/pull/" ++ n1 = pre2 ++ "/pull/" ++ n2 ->
  pre1 = pre2 /\ n1 = n2.
Proof.
  intros H1 H2 E.
  assert (En : n1 = n2).
  { assert (A : forall pre n, all_chars is_digit n = true ->
                afterLast "/" (pre ++ "/pull/" ++ n) = Some n).
    { intros pre n Hn.
      change (pre ++ "/pull/" ++ n) with (pre ++ "/pull" ++ String "/" n).
      rewrite <- app_assoc. apply afterLast_app.
      apply (all_chars_impl is_digit); [apply digit_not_slash | exact Hn]. }
    apply (f_equal (afterLast "/")) in E.
    rewrite (A pre1 n1 H1), (A pre2 n2 H2) in E. now inversion E. }
  split; [|exact En]. subst n2. now apply app_inv_tail in E.
Qed.

(** A greedy run whose continuation only accepts the end of the input
    succeeds exactly when the class accepts everything that is left. *)
Lemma greedy_to_end (p : ascii -> bool) (k : string -> option hit) (s : string) :
  (forall c t, k (String c t) = None) ->
  greedy p k s = if all_chars p s then k EmptyString else None.
Proof.
  intros Hk; induction s as [|c s IH]; simpl; [reflexivity|].
  destruct (p c); simpl; [|apply Hk].
  rewrite IH. destruct (all_chars p s); [|apply Hk].
  destruct (k EmptyString); [reflexivity | apply Hk].
Qed.

(** What the pull-request pattern accepts at a given position. *)
Lemma match_pull (opened : string) (cap : option string) (s : string) :
  matchHere re_pull opened cap s =
  match strip_prefix "/pull/" s with
  | Some n =>
      if truthy n && all_chars is_digit n
      then Some (mkHit EmptyString (Some n)) else None
  | None => None
  end.
Proof.
  unfold re_pull. cbn [matchHere].
  destruct (strip_prefix "/pull/" s) as [[|c t]|]; try reflexivity.
  cbn [truthy all_chars andb].
  destruct (is_digit c); [|reflexivity].
  rewrite greedy_to_end by (intros; reflexivity).
  destruct (all_chars is_digit t); [|reflexivity].
  cbn [matchHere]. change (String.length EmptyString) with 0.
  now rewrite Nat.sub_0_r, (take_all (String c t)).
Qed.

Lemma truthy_iff (s : string) : truthy s = true <-> s <> EmptyString.
Proof. destruct s; simpl; split; intros H; congruence. Qed.

Lemma search_from_unfold (r : regex) (before s : string) :
  search_from r before s =
  match matchHere r s None s with
  | Some h =>
      Some (mkFound before
              (take (String.length s - String.length (h_rest h)) s)
              (h_rest h)
              (match ngroups r with 0 => [] | S _ => [h_cap h] end))
  | None =>
      match s with
      | EmptyString => None
      | String c s' => search_from r (before ++ String c EmptyString) s'
      end
  end.
Proof. destruct s; reflexivity. Qed.

Lemma search_pull_sound (s : string) : forall before f,
  search_from re_pull before s = Some f ->
  exists pre n,
    before ++ s = pre ++ "/pull/" ++ n
    /\ truthy n = true /\ all_chars is_digit n = true
    /\ f = mkFound pre ("/pull/" ++ n) EmptyString [Some n].
Proof.
  induction s as [|c s IH]; intros before f; rewrite search_from_unfold, match_pull.
  - discriminate.
  - destruct (strip_prefix "/pull/" (String c s)) as [n|] eqn:En.
    + destruct (truthy n && all_chars is_digit n) eqn:Ed.
      * intros H; inversion H; subst f; clear H.
        apply andb_prop in Ed as [Ht Hd].
        apply strip_prefix_sound in En.
        exists before, n. rewrite take_all, En. auto.
      * intros H; apply IH in H as (pre & m & E & H).
        exists pre, m. split; [|exact H].
        rewrite <- E, app_assoc; reflexivity.
    + intros H; apply IH in H as (pre & m & E & H).
      exists pre, m. split; [|exact H].
      rewrite <- E, app_assoc; reflexivity.
Qed.

Lemma search_pull_complete (pre n : string) : forall before,
  truthy n = true -> all_chars is_digit n = true ->
  exists f, search_from re_pull before (pre ++ "/pull/" ++ n) = Some f.
Proof.
  induction pre as [|c pre IH]; intros before Ht Hd; rewrite search_from_unfold.
  - rewrite match_pull. change (EmptyString ++ "/pull/" ++ n) with ("/pull/" ++ n).
    rewrite strip_prefix_app, Ht, Hd. eexists; reflexivity.
  - destruct (matchHere re_pull (String c pre ++ "/pull/" ++ n) None
                (String c pre ++ "/pull/" ++ n)).
    + eexists; reflexivity.
    + apply IH; assumption.
Qed.

(** The pattern finds a match exactly on the URLs of the shape [pull_url],
    and group 1 is then the number. *)
Lemma search_pull_iff (url n : string) :
  pull_url url n <->
  exists f, search re_pull url = Some f /\ group1 f = n.
Proof.
  unfold search; split.
  - intros (pre & E & Hn & Hd). apply truthy_iff in Hn.
    destruct (search_pull_complete pre n EmptyString Hn Hd) as [f Hf].
    subst url. exists f; split; [exact Hf|].
    apply search_pull_sound in Hf as (pre' & m & E & Ht & Hm & ->).
    simpl in E. apply pull_url_unique in E; try assumption.
    destruct E as [_ ->]; reflexivity.
  - intros (f & Hf & Hg).
    apply search_pull_sound in Hf as (pre & m & E & Ht & Hm & ->).
    change (m = n) in Hg. simpl in E; subst m. exists pre. apply truthy_iff in Ht. auto.
Qed.

Lemma search_pull_none (url : string) :
  (forall n, ~ pull_url url n) -> search re_pull url = None.
Proof.
  intros H. destruct (search re_pull url) as [f|] eqn:E; [|reflexivity].
  exfalso. apply (H (group1 f)). apply search_pull_iff. now exists f.
Qed.

(** *** Searching a command line piece by piece *)

(** [skips] is built up one code unit, or one piece, at a time. *)
Lemma skips_nil r s : skips r EmptyString s.
Proof.
  intros a b H Hb. destruct a; destruct b; simpl in H; try discriminate.
  contradiction.
Qed.

Lemma skips_cons r c pre s :
  matchHere r (String c (pre ++ s)) None (String c (pre ++ s)) = None ->
  skips r pre s -> skips r (String c pre) s.
Proof.
  intros H0 H a b E Hb. destruct a as [|x a]; simpl in E.
  - subst b. exact H0.
  - inversion E; subst. now apply (H a b).
Qed.

Lemma skips_app r p1 p2 s :
  skips r p1 (p2 ++ s) -> skips r p2 s -> skips r (p1 ++ p2) s.
Proof.
  revert p2 s; induction p1 as [|c p1 IH]; intros p2 s H1 H2.
  - exact H2.
  - simpl. apply skips_cons.
    + rewrite app_assoc.
      apply (H1 EmptyString (String c p1)); [reflexivity | discriminate].
    + apply IH; [|exact H2].
      intros a b E Hb. apply (H1 (String c a) b); [now rewrite E | exact Hb].
Qed.

(** The search passes over a prefix in which the pattern matches nowhere. *)
Lemma search_from_skips r pre s before :
  skips r pre s ->
  search_from r before (pre ++ s) = search_from r (before ++ pre) s.
Proof.
  revert before; induction pre as [|c pre IH]; intros before H.
  - now rewrite app_nil_r.
  - change (String c pre ++ s) with (String c (pre ++ s)).
    rewrite search_from_unfold.
    assert (H0 : matchHere r (String c (pre ++ s)) None (String c (pre ++ s)) = None).
    { apply (H EmptyString (String c pre)); [reflexivity | discriminate]. }
    rewrite H0. cbv beta iota. rewrite IH.
    + now rewrite app_assoc.
    + intros a b E Hb. apply (H (String c a) b); [now rewrite E | exact Hb].
Qed.

(** A literal that does not occur in [t] and does not contain [sep] does
    not start anywhere inside [t ++ sep ++ rest]. *)
Lemma lit_skips_before_sep (l : string) (r : regex) (t rest : string) (sep : ascii) :
  includes l t = false -> all_chars (not_char sep) l = true ->
  skips (Lit l :: r) t (String sep rest).
Proof.
  intros Ht Hl a b E Hb. cbn [matchHere].
  destruct (strip_prefix l (b ++ String sep rest)) eqn:Es; [|reflexivity].
  exfalso. subst t.
  apply (strip_prefix_sep l b rest sep Hl); [rewrite Es; discriminate|].
  now apply (includes_suffix l a b).
Qed.

Lemma lit_skips_at_end (l : string) (r : regex) (t : string) :
  includes l t = false -> skips (Lit l :: r) t EmptyString.
Proof.
  intros Ht a b E Hb. cbn [matchHere]. rewrite app_nil_r. subst t.
  now rewrite (includes_suffix l a b Ht).
Qed.

(** A greedy run takes a whole stretch of accepted code units when the
    continuation accepts what follows the stretch. *)
Lemma greedy_run (p : ascii -> bool) (k : string -> option hit) (run rest : string) h :
  all_chars p run = true -> k rest = Some h ->
  match rest with EmptyString => True | String c _ => p c = false end ->
  greedy p k (run ++ rest) = Some h.
Proof.
  intros Hr Hk Hc; induction run as [|c run IH]; simpl in *.
  - destruct rest as [|c rest]; simpl; [exact Hk | now rewrite Hc].
  - apply andb_prop in Hr as [Hpc Hr]. now rewrite Hpc, (IH Hr).
Qed.

(** A template without a dollar sign is inserted as it is. *)
Lemma getSubstitution_plain m b a caps (t : string) :
  all_chars (not_char "$") t = true -> getSubstitution m b a caps t = t.
Proof.
  induction t as [|c t IH]; [reflexivity|].
  cbn [all_chars]. intros H; apply andb_prop in H as [Hc Ht].
  unfold not_char in Hc. rewrite Ascii.eqb_sym in Hc.
  cbn [getSubstitution]. destruct (Ascii.eqb c "$"); [discriminate|].
  now rewrite (IH Ht).
Qed.

(** Global replacement of one code unit: nothing to do when it does not
    occur; a class of code units that holds the text and the template holds
    the result. *)
Lemma replaceAllChar_absent c tmpl (s : string) : forall before,
  all_chars (not_char c) s = true -> replaceAllChar c tmpl before s = s.
Proof.
  induction s as [|x s IH]; intros before; [reflexivity|].
  cbn [all_chars replaceAllChar]. intros H; apply andb_prop in H as [Hx Hs].
  unfold not_char in Hx. rewrite Ascii.eqb_sym in Hx.
  destruct (Ascii.eqb x c); [discriminate|]. now rewrite IH.
Qed.

Lemma replaceAllChar_keeps (q : ascii -> bool) c tmpl (s : string) : forall before,
  all_chars (not_char "$") tmpl = true -> all_chars q tmpl = true ->
  all_chars q s = true -> all_chars q (replaceAllChar c tmpl before s) = true.
Proof.
  intros before Hd Hq; revert before.
  induction s as [|x s IH]; intros before; [reflexivity|].
  cbn [all_chars replaceAllChar]. intros H; apply andb_prop in H as [Hx Hs].
  destruct (Ascii.eqb x c).
  - rewrite getSubstitution_plain by exact Hd.
    rewrite all_chars_app, Hq. now apply IH.
  - cbn [all_chars]. rewrite Hx. now apply IH.
Qed.

(** Passing over a literal prefix is decided by computation. *)
Ltac skip_literal :=
  repeat (apply skips_cons; [reflexivity|]); try apply skips_nil.

Lemma skips_to_end r p1 p2 :
  skips r p1 p2 -> skips r p2 EmptyString -> skips r (p1 ++ p2) EmptyString.
Proof.
  intros H1 H2. apply skips_app; [now rewrite app_nil_r | exact H2].
Qed.

Lemma search_from_found r pre s before h :
  skips r pre s -> matchHere r s None s = Some h ->
  exists m,
    search_from r before (pre ++ s)
    = Some (mkFound (before ++ pre) m (h_rest h)
              (match ngroups r with 0 => [] | S _ => [h_cap h] end)).
Proof.
  intros Hs Hm. rewrite (search_from_skips r pre s before Hs).
  rewrite search_from_unfold, Hm. eexists; reflexivity.
Qed.

Lemma search_from_nothing r s before :
  skips r s EmptyString -> matchHere r EmptyString None EmptyString = None ->
  search_from r before s = None.
Proof.
  intros Hs Hm. rewrite <- (app_nil_r s).
  rewrite (search_from_skips r s EmptyString before Hs).
  now rewrite search_from_unfold, Hm.
Qed.

End RegexFacts.

(* ===================================================================== *)
(** ** Facts about the operations *)
(* ===================================================================== *)

Module WorkflowFacts.
Import Js Regex Host Workflow Spec Scenarios JsFacts RegexFacts.

(** *** The merge command line *)

Lemma trimStart_fixed (c : ascii) (s : string) :
  is_space c = false -> trimStart (String c s) = String c s.
Proof. intros H; simpl; now rewrite H. Qed.

Lemma mergeCommand_keep (prNumber : string) (m : MergeMethod) :
  mergeCommand prNumber m true
  = "gh pr merge " ++ prNumber ++ " " ++ mergeFlag m ++ " --delete-branch".
Proof.
  unfold mergeCommand, trim, deleteFlag.
  change ("gh pr merge " ++ prNumber ++ " " ++ mergeFlag m ++ " " ++ "--delete-branch")
    with (String "g" ("h pr merge " ++ prNumber ++ " " ++ mergeFlag m ++ " --delete-branch")).
  rewrite trimStart_fixed by reflexivity.
  change (String "g" ("h pr merge " ++ prNumber ++ " " ++ mergeFlag m ++ " --delete-branch"))
    with ("gh pr merge " ++ prNumber ++ " " ++ mergeFlag m ++ " --delete-branch").
  rewrite <- !app_assoc.
  rewrite trimEnd_app; [reflexivity | vm_compute; discriminate].
Qed.

Lemma mergeCommand_drop (prNumber : string) (m : MergeMethod) :
  mergeCommand prNumber m false
  = "gh pr merge " ++ prNumber ++ " " ++ mergeFlag m.
Proof.
  unfold mergeCommand, trim, deleteFlag.
  change ("gh pr merge " ++ prNumber ++ " " ++ mergeFlag m ++ " " ++ EmptyString)
    with (String "g" ("h pr merge " ++ prNumber ++ " " ++ mergeFlag m ++ " ")).
  rewrite trimStart_fixed by reflexivity.
  change (String "g" ("h pr merge " ++ prNumber ++ " " ++ mergeFlag m ++ " "))
    with ("gh pr merge " ++ prNumber ++ " " ++ (mergeFlag m ++ " ")).
  rewrite <- 2 app_assoc.
  rewrite trimEnd_app by (destruct m; vm_compute; discriminate).
  rewrite !app_assoc. now destruct m.
Qed.

(** Where a flag can sit in a merge command without a delete flag: only
    inside the pull-request number or the merge flag. *)
Lemma includes_mergeCommand (flag prNumber : string) (m : MergeMethod) :
  all_chars (not_char " ") flag = true -> flag <> EmptyString ->
  includes flag ("gh pr merge " ++ prNumber ++ " " ++ mergeFlag m)
  = includes flag "gh" || includes flag "pr" || includes flag "merge"
    || includes flag prNumber || includes flag (mergeFlag m).
Proof.
  intros Hf Hne.
  change ("gh pr merge " ++ prNumber ++ " " ++ mergeFlag m)
    with ("gh" ++ String " " ("pr" ++ String " " ("merge" ++ String " "
            (prNumber ++ String " " (mergeFlag m))))).
  rewrite !(includes_sep flag _ _ " ") by assumption.
  now rewrite !orb_assoc.
Qed.

(** *** The pull-request command line on plain text *)

(** Escaping a title without a dollar sign brings none in. *)
Lemma escape_dollar_free (t : string) :
  all_chars (not_char "$") t = true ->
  all_chars (not_char "$") (escapePowerShellString t) = true.
Proof.
  intros H. unfold escapePowerShellString.
  apply replaceAllChar_keeps; try reflexivity.
  rewrite replaceAllChar_absent.
  - apply replaceAllChar_keeps; try reflexivity.
    apply replaceAllChar_keeps; try reflexivity. exact H.
  - apply replaceAllChar_keeps; try reflexivity.
    apply replaceAllChar_keeps; try reflexivity. exact H.
Qed.

(** The first replacement finds the quoted body when the body has no double
    quote and the title does not contain the flag. *)
Lemma body_flag_found (T B rest : string) :
  all_chars (not_char (ascii_of_nat 34)) B = true -> includes "--body" T = false ->
  exists m,
    search re_body_quoted
      ("gh pr create --title " ++ dq ++ T ++ dq ++ " --body " ++ dq ++ B ++ dq ++ rest)
    = Some (mkFound ("gh pr create --title " ++ dq ++ T ++ dq ++ " ") m rest []).
Proof.
  intros HB HT. unfold search.
  replace ("gh pr create --title " ++ dq ++ T ++ dq ++ " --body " ++ dq ++ B ++ dq ++ rest)
    with (("gh pr create --title " ++ dq) ++ (T ++ (dq ++ " "))
            ++ ("--body " ++ dq ++ B ++ dq ++ rest)).
  2:{ cbn [append dq]. now rewrite !app_assoc. }
  rewrite <- app_assoc.
  destruct (search_from_found re_body_quoted
              (("gh pr create --title " ++ dq) ++ T ++ dq ++ " ")
              ("--body " ++ dq ++ B ++ dq ++ rest) EmptyString
              (mkHit rest None)) as [m Hm].
  - apply skips_app.
    + cbn [append dq]. skip_literal.
    + apply skips_app.
      * apply lit_skips_before_sep; [exact HT | reflexivity].
      * cbn [append dq]. skip_literal.
  - cbn [append dq re_body_quoted matchHere strip_prefix Ascii.eqb Bool.eqb].
    change (is_space " ") with true. cbv iota. cbn [greedy].
    change (is_space (ascii_of_nat 34)) with false. cbv beta iota.
    rewrite Ascii.eqb_refl.
    apply greedy_run; [exact HB | now rewrite Ascii.eqb_refl|].
    unfold not_char. now rewrite Ascii.eqb_refl.
  - exists m. rewrite Hm. reflexivity.
Qed.

(** The second replacement then finds nothing to replace. *)
Lemma bare_flag_absent (T f b h : string) :
  includes "--body" T = false -> includes "--body" f = false ->
  includes "--body" b = false -> includes "--body" h = false ->
  search re_body_bare
    ("gh pr create --title " ++ dq ++ T ++ dq ++ " --body-file " ++ dq ++ f
       ++ dq ++ " --base " ++ b ++ " --head " ++ h)
  = None.
Proof.
  intros HT Hf Hb Hh. unfold search.
  apply search_from_nothing; [|reflexivity].
  replace ("gh pr create --title " ++ dq ++ T ++ dq ++ " --body-file " ++ dq ++ f
             ++ dq ++ " --base " ++ b ++ " --head " ++ h)
    with (("gh pr create --title " ++ dq) ++ T ++ (dq ++ " --body-file " ++ dq)
            ++ f ++ (dq ++ " --base ") ++ b ++ " --head " ++ h)
    by (cbn [append dq]; now rewrite ?app_assoc).
  apply skips_to_end; [cbn [append dq]; skip_literal|].
  apply skips_to_end.
  { cbn [append dq]. apply lit_skips_before_sep; [exact HT | reflexivity]. }
  apply skips_to_end; [cbn [append dq]; skip_literal|].
  apply skips_to_end.
  { cbn [append dq]. apply lit_skips_before_sep; [exact Hf | reflexivity]. }
  apply skips_to_end; [cbn [append dq]; skip_literal|].
  apply skips_to_end.
  { cbn [append]. apply lit_skips_before_sep; [exact Hb | reflexivity]. }
  apply skips_to_end; [cbn [append]; skip_literal|].
  now apply lit_skips_at_end.
Qed.

Lemma take_prefix (a b : string) :
  take (String.length (a ++ b) - String.length b) (a ++ b) = a.
Proof. rewrite length_app, Nat.add_sub. apply take_app. Qed.

(** The third replacement finds the quoted title when the title has no
    double quote; group 1 is the title. *)
Lemma title_flag_found (T rest : string) :
  all_chars (not_char (ascii_of_nat 34)) T = true ->
  exists m,
    search re_title ("gh pr create --title " ++ dq ++ T ++ dq ++ rest)
    = Some (mkFound "gh pr create " m rest [Some T]).
Proof.
  intros HT. unfold search.
  change ("gh pr create --title " ++ dq ++ T ++ dq ++ rest)
    with ("gh pr create " ++ ("--title " ++ dq ++ T ++ dq ++ rest)).
  destruct (search_from_found re_title "gh pr create "
              ("--title " ++ dq ++ T ++ dq ++ rest) EmptyString
              (mkHit rest (Some T))) as [m Hm].
  - cbn [append dq]. skip_literal.
  - cbn [append dq re_title matchHere strip_prefix Ascii.eqb Bool.eqb].
    cbv beta iota.
    change (is_space " ") with true. cbv iota. cbn [greedy].
    change (is_space (ascii_of_nat 34)) with false. cbv beta iota.
    rewrite Ascii.eqb_refl.
    apply greedy_run; [exact HT | |unfold not_char; now rewrite Ascii.eqb_refl].
    rewrite Ascii.eqb_refl.
    now rewrite (take_prefix T (String (ascii_of_nat 34) rest)).
  - exists m. rewrite Hm. reflexivity.
Qed.

(** The three replacements together, on plain text. *)
Lemma plain_text_command (T B f b h : string) :
  truthy T = true ->
  all_chars (not_char (ascii_of_nat 34)) T = true ->
  all_chars (not_char "$") T = true ->
  includes "--body" T = false ->
  all_chars (not_char (ascii_of_nat 34)) B = true ->
  all_chars (not_char "$") f = true ->
  includes "--body" f = false ->
  includes "--body" b = false ->
  includes "--body" h = false ->
  withTitle (Some T) (withBodyFile f (createCommand T B b h))
  = "gh pr create --title '" ++ escapePowerShellString T ++ "' --body-file "
      ++ dq ++ f ++ dq ++ " --base " ++ b ++ " --head " ++ h.
Proof.
  intros Ht Tq Td Tf Bq fd ff bf hf.
  assert (Hfile : all_chars (not_char "$") ("--body-file " ++ dq ++ f ++ dq) = true).
  { now rewrite !all_chars_app, fd. }
  unfold withTitle, withBodyFile, createCommand. cbn [truthy_opt dflt]. rewrite Ht.
  destruct (body_flag_found T B (" --base " ++ b ++ " --head " ++ h) Bq Tf)
    as [m1 H1].
  unfold replace at 3. rewrite H1. cbn [f_before f_matched f_after f_caps].
  rewrite getSubstitution_plain by exact Hfile.
  replace (("gh pr create --title " ++ dq ++ T ++ dq ++ " ")
             ++ ("--body-file " ++ dq ++ f ++ dq)
             ++ " --base " ++ b ++ " --head " ++ h)
    with ("gh pr create --title " ++ dq ++ T ++ dq ++ " --body-file " ++ dq ++ f
            ++ dq ++ " --base " ++ b ++ " --head " ++ h)
    by (cbn [append dq]; now rewrite ?app_assoc).
  unfold replace at 2. rewrite (bare_flag_absent T f b h Tf ff bf hf).
  destruct (title_flag_found T
              (" --body-file " ++ dq ++ f ++ dq ++ " --base " ++ b ++ " --head " ++ h) Tq)
    as [m2 H2].
  unfold replace. rewrite H2. cbn [f_before f_matched f_after f_caps].
  rewrite getSubstitution_plain.
  - cbn [append]. now rewrite ?app_assoc.
  - rewrite !all_chars_app, (escape_dollar_free T Td). reflexivity.
Qed.

(** Case analysis on every answer of the version-control collaborator that
    the goal still depends on. *)
Ltac answers :=
  repeat (cbv beta iota zeta; cbn [negb]; cbv beta iota zeta;
    match goal with
    | |- context [simpleGit_ ?E ?w ?d] =>
        destruct (simpleGit_ E w d) as [?|[]] eqn:?
    | |- context [checkIsRepo_ ?E ?w ?d] =>
        destruct (checkIsRepo_ E w d) as [?|[|]] eqn:?
    | |- context [status_ ?E ?w ?d] =>
        destruct (status_ E w d) as [?|[]] eqn:?
    | |- context [checkoutBranch_ ?E ?w ?d ?b ?s] =>
        destruct (checkoutBranch_ E w d b s) as [?|[]] eqn:?
    | |- context [checkout_ ?E ?w ?d ?b] =>
        destruct (checkout_ E w d b) as [?|[]] eqn:?
    | |- context [add_ ?E ?w ?d ?f] =>
        destruct (add_ E w d f) as [?|[]] eqn:?
    | |- context [commit_ ?E ?w ?d ?m] =>
        destruct (commit_ E w d m) as [?|?] eqn:?
    | |- context [revparse_ ?E ?w ?d ?a] =>
        destruct (revparse_ E w d a) as [?|?] eqn:?
    | |- context [push_ ?E ?w ?d ?r ?b] =>
        destruct (push_ E w d r b) as [?|[]] eqn:?
    end);
  cbv beta iota zeta; cbn [negb]; cbv beta iota zeta.

Section Runs.

Variable E : Env.

(** *** How the merge step runs *)

Lemma mergePullRequest_dry (prNumber : string) (mm : option MergeMethod)
  (del : option bool) (wd : option string) (w : World) :
  mergePullRequest E prNumber mm del wd true w
  = (Returned (mkResult true "Dry run: Would merge pull request"
                 (Some (MergePreview prNumber (dflt mm Merge) (dflt del true)))
                 None), w).
Proof. reflexivity. Qed.

Lemma mergePullRequest_run (prNumber : string) (mm : option MergeMethod)
  (del : option bool) (wd : option string) (w : World) :
  let command :=
    powerShellCommand (mergeCommand prNumber (dflt mm Merge) (dflt del true)) in
  mergePullRequest E prNumber mm del wd false w
  = (Returned
       match exec_ E w command (or_else wd (cwd E)) with
       | Returned result =>
           mkResult true "Successfully merged pull request"
             (Some (MergeDone prNumber (dflt mm Merge) (stdout result))) None
       | Threw error =>
           mkResult false "Failed to merge pull request" None
             (Some ("Failed to merge pull request: "
                      ++ e_message (commandFailed error)))
       end,
     log (EvExec command (or_else wd (cwd E))) w).
Proof.
  unfold mergePullRequest, executeWithClearedTokens, try_catch, bind, exec,
    call, throw, ret.
  cbv zeta. now destruct (exec_ E w _ _).
Qed.

(** *** The leaf operations never throw *)

Lemma guarded_returns {A : Type} (c : M A) (h : JsError -> A) (w : World) :
  exists a w', try_catch c (fun e => ret (h e)) w = (Returned a, w').
Proof.
  unfold try_catch, ret. destruct (c w) as [[e|a] w']; eauto.
Qed.

Lemma commitAndPush_returns files cm branch wd dry (w : World) :
  exists r w', commitAndPush E files cm branch wd dry w = (Returned r, w').
Proof. apply guarded_returns. Qed.

Lemma createPullRequest_returns title body base head wd dry (w : World) :
  exists r w', createPullRequest E title body base head wd dry w = (Returned r, w').
Proof. apply guarded_returns. Qed.

Lemma mergePullRequest_returns n mm del wd dry (w : World) :
  exists r w', mergePullRequest E n mm del wd dry w = (Returned r, w').
Proof. apply guarded_returns. Qed.

Lemma completeGitWorkflow_returns files cm t b br base auto wd dry (w : World) :
  exists r w',
    completeGitWorkflow E files cm t b br base auto wd dry w = (Returned r, w').
Proof. apply guarded_returns. Qed.

(** *** How the composite runs *)

Lemma workflow_stops_at_commit files cm t b br base auto wd w r1 w1 :
  commitAndPush E files cm br wd false w = (Returned r1, w1) ->
  success r1 = false ->
  completeGitWorkflow E files cm t b br base auto wd false w = (Returned r1, w1).
Proof.
  intros H1 S1. unfold completeGitWorkflow, try_catch, bind.
  now rewrite H1, S1.
Qed.

Lemma workflow_stops_at_pr files cm t b br base auto wd w r1 w1 r2 w2 :
  commitAndPush E files cm br wd false w = (Returned r1, w1) ->
  success r1 = true ->
  createPullRequest E t b (Some (dflt base "main")) br wd false w1
    = (Returned r2, w2) ->
  success r2 = false ->
  completeGitWorkflow E files cm t b br base auto wd false w = (Returned r2, w2).
Proof.
  intros H1 S1 H2 S2. unfold completeGitWorkflow, try_catch, bind.
  rewrite H1, S1. cbn [negb]. now rewrite H2, S2.
Qed.

Lemma workflow_completes files cm t b br base auto wd w r1 w1 r2 w2 mr w3 :
  commitAndPush E files cm br wd false w = (Returned r1, w1) ->
  success r1 = true ->
  createPullRequest E t b (Some (dflt base "main")) br wd false w1
    = (Returned r2, w2) ->
  success r2 = true ->
  autoMergeStep E auto r2 wd w2 = (Returned mr, w3) ->
  completeGitWorkflow E files cm t b br base auto wd false w
  = (Returned
       (mkResult true "Successfully completed Git workflow"
          (Some (WorkflowDone (details r1) (details r2)
                   (match mr with Some r => details r | None => None end)))
          None),
     w3).
Proof.
  intros H1 S1 H2 S2 H3. unfold completeGitWorkflow, try_catch, bind.
  rewrite H1, S1. cbn [negb]. rewrite H2, S2. cbn [negb]. now rewrite H3.
Qed.

(** The merge step of the composite, when the URL has the expected shape
    and when it has not. *)
Lemma autoMergeStep_match r2 wd w2 url n :
  details_url (details r2) = Some url -> pull_url url n ->
  autoMergeStep E true r2 wd w2
  = match mergePullRequest E n (Some Merge) (Some true) wd false w2 with
    | (Returned r, w3) => (Returned (Some r), w3)
    | (Threw e, w3) => (Threw e, w3)
    end.
Proof.
  intros Hu Hp. unfold autoMergeStep. rewrite Hu. cbn [andb truthy_opt dflt].
  assert (Ht : truthy url = true).
  { destruct Hp as (pre & -> & _). now destruct pre. }
  rewrite Ht. apply search_pull_iff in Hp as (f & -> & <-).
  unfold bind, ret. reflexivity.
Qed.

Lemma autoMergeStep_skip auto r2 wd w2 :
  (forall url n, details_url (details r2) = Some url -> ~ pull_url url n) ->
  autoMergeStep E auto r2 wd w2 = (Returned None, w2).
Proof.
  intros H. unfold autoMergeStep.
  destruct (auto && truthy_opt (details_url (details r2))); [|reflexivity].
  destruct (details_url (details r2)) as [url|] eqn:Hu.
  - cbn [dflt]. rewrite search_pull_none; [reflexivity|].
    intros n; now apply H.
  - cbn [dflt]. reflexivity.
Qed.

(** *** The body file *)

Lemma exists_remove_file (p : string) (fs : list (string * string)) :
  exists_file p (remove_file p fs) = false.
Proof.
  induction fs as [|[q c] fs IH]; simpl; [reflexivity|].
  destruct (String.eqb p q) eqn:Epq; [exact IH|].
  simpl. now rewrite Epq, IH.
Qed.

(** The [finally] block never throws, logs exactly one removal, and leaves
    no file behind when removals do not fail. *)
Lemma cleanup_run (f : string) (w : World) :
  exists w',
    cleanup E (Some f) w = (Returned tt, w')
    /\ trace w' = (trace w ++ [EvUnlink f])%list
    /\ (reliable_unlink E -> exists_file f (files w') = false).
Proof.
  unfold cleanup, try_catch, unlinkSync, ret, log.
  destruct (exists_file f (files w)) eqn:Ex.
  - destruct (unlink_ E w f) as [e|[]] eqn:Eu.
    + eexists; repeat split. intros R. rewrite (R w f) in Eu. discriminate.
    + eexists; repeat split. intros _. cbn [files]. apply exists_remove_file.
  - eexists; repeat split. intros _. exact Ex.
Qed.

(** What a run of [executeGitHubCommand] leaves in the log: at least one
    call, and after any write of a body file, a removal of that file as the
    last call. *)
Lemma executeGitHubCommand_log base title body wd (w : World) :
  exists r w' evs,
    executeGitHubCommand E base title body wd w = (r, w')
    /\ trace w' = (trace w ++ evs)%list
    /\ evs <> []
    /\ (forall p c, In (EvWriteFile p c) evs ->
          (exists evs', evs = (evs' ++ [EvUnlink p])%list)
          /\ (reliable_unlink E -> exists_file p (files w') = false)).
Proof.
  unfold executeGitHubCommand, try_finally, try_catch, bind, exec, call,
    throw, ret.
  destruct (truthy_opt body).
  - cbv zeta. set (f := tempBodyFileName E w).
    unfold writeFileSync.
    destruct (writeFile_ E w f (dflt body EmptyString)) as [e|[]].
    + destruct (cleanup_run f (log (EvWriteFile f (dflt body EmptyString)) w))
        as (w' & -> & Ht & Hf).
      exists (Threw (commandFailed e)), w',
        [EvWriteFile f (dflt body EmptyString); EvUnlink f].
      repeat split.
      * rewrite Ht. cbn [log trace]. now rewrite <- List.app_assoc.
      * discriminate.
      * destruct H as [H|[H|[]]]; inversion H; subst.
        now exists [EvWriteFile f (dflt body EmptyString)].
      * destruct H as [H|[H|[]]]; inversion H; subst. exact Hf.
    + match goal with
      | |- context [exec_ E ?w1 ?c ?d] =>
          set (w1' := w1); set (cmd := c); set (dir := d)
      end.
      destruct (cleanup_run f (log (EvExec cmd dir) w1')) as (w' & Hc & Ht & Hf).
      exists (match exec_ E w1' cmd dir with
              | Threw e => Threw (commandFailed e)
              | Returned a => Returned a
              end), w',
        [EvWriteFile f (dflt body EmptyString); EvExec cmd dir; EvUnlink f].
      repeat split.
      * destruct (exec_ E w1' cmd dir); cbn [cleanup] in Hc |- *;
          unfold log in Hc |- *; now rewrite Hc.
      * rewrite Ht. cbn [log trace]. subst w1'. cbn [trace].
        now rewrite <- !List.app_assoc.
      * discriminate.
      * destruct H as [H|[H|[H|[]]]]; inversion H; subst.
        now exists [EvWriteFile f (dflt body EmptyString); EvExec cmd dir].
      * destruct H as [H|[H|[H|[]]]]; inversion H; subst. exact Hf.
  - cbv zeta. cbn [cleanup ret].
    match goal with
    | |- context [exec_ E w ?c ?d] => set (cmd := c); set (dir := d)
    end.
    exists (match exec_ E w cmd dir with
            | Threw e => Threw (commandFailed e)
            | Returned a => Returned a
            end), (log (EvExec cmd dir) w), [EvExec cmd dir].
    repeat split.
    + now destruct (exec_ E w cmd dir).
    + discriminate.
    + destruct H as [H|[]]; discriminate.
    + destruct H as [H|[]]; discriminate.
Qed.

Lemma createPullRequest_dry title body base head wd (w : World) :
  createPullRequest E title body base head wd true w
  = (Returned (mkResult true "Dry run: Would create pull request"
                 (Some (PullRequestPreview title body (dflt base "main") head))
                 None), w).
Proof. reflexivity. Qed.

(** What a run of [createPullRequest] leaves in the log. *)
Lemma createPullRequest_log title body base head wd (w : World) :
  exists r w' evs,
    createPullRequest E title body base head wd false w = (Returned r, w')
    /\ trace w' = (trace w ++ evs)%list
    /\ evs <> []
    /\ (forall p c, In (EvWriteFile p c) evs ->
          (exists evs', evs = (evs' ++ [EvUnlink p])%list)
          /\ (reliable_unlink E -> exists_file p (files w') = false)).
Proof.
  unfold createPullRequest, getGit. unfold try_catch, bind, call, ret.
  destruct (truthy_opt head); cbn [negb].
  - match goal with
    | |- context [executeGitHubCommand E ?c ?t ?b ?d w] =>
        destruct (executeGitHubCommand_log c t b d w)
          as (r & w' & evs & -> & Ht & Hne & Hw)
    end.
    destruct r as [e|out]; eexists; exists w', evs;
      (split; [reflexivity | split; [exact Ht | split; [exact Hne | exact Hw]]]).
  - set (dir := or_else wd (cwd E)).
    destruct (simpleGit_ E w dir) as [e|[]].
    { eexists; eexists; exists [EvSimpleGit dir].
      split; [reflexivity | split; [reflexivity | split; [discriminate|]]].
      intros p c [H|[]]; discriminate. }
    set (w1 := log (EvSimpleGit dir) w).
    destruct (revparse_ E w1 dir ["--abbrev-ref"; "HEAD"]) as [e|hb].
    { eexists; eexists; exists [EvSimpleGit dir; EvRevparse dir ["--abbrev-ref"; "HEAD"]].
      split; [reflexivity | split; [|split; [discriminate|]]].
      - subst w1. cbn [log trace]. now rewrite <- List.app_assoc.
      - intros p c [H|[H|[]]]; discriminate. }
    set (w2 := log (EvRevparse dir ["--abbrev-ref"; "HEAD"]) w1).
    match goal with
    | |- context [executeGitHubCommand E ?c ?t ?b ?d w2] =>
        destruct (executeGitHubCommand_log c t b d w2)
          as (r & w' & evs & -> & Ht & Hne & Hw)
    end.
    assert (Hin : forall p c,
               In (EvWriteFile p c)
                 ([EvSimpleGit dir; EvRevparse dir ["--abbrev-ref"; "HEAD"]] ++ evs)
               -> In (EvWriteFile p c) evs).
    { intros p c [H|[H|H]]; [discriminate | discriminate | exact H]. }
    destruct r as [e|out]; eexists; exists w',
      ([EvSimpleGit dir; EvRevparse dir ["--abbrev-ref"; "HEAD"]] ++ evs)%list;
      (split; [reflexivity | split; [|split; [discriminate|]]];
       [ rewrite Ht; subst w2 w1; cbn [log trace]; now rewrite <- !List.app_assoc
       | intros p c H; destruct (Hw p c (Hin p c H)) as [[evs' ->] Hf];
         split; [|exact Hf];
         exists ([EvSimpleGit dir; EvRevparse dir ["--abbrev-ref"; "HEAD"]] ++ evs')%list;
         reflexivity ]).
Qed.

Lemma grows (w w' : World) (evs : list Event) :
  trace w' = (trace w ++ evs)%list -> evs <> [] ->
  List.length (trace w) < List.length (trace w').
Proof.
  intros -> H. rewrite List.length_app.
  destruct evs; [contradiction | simpl; lia].
Qed.

(** A pull-request or merge step that is not a dry run always shows in the
    log. *)
Lemma createPullRequest_shows title body base head wd (w : World) :
  List.length (trace w)
  < List.length (trace (snd (createPullRequest E title body base head wd false w))).
Proof.
  destruct (createPullRequest_log title body base head wd w)
    as (r & w' & evs & -> & Ht & Hne & _).
  exact (grows w w' evs Ht Hne).
Qed.

Lemma mergePullRequest_shows n mm del wd (w : World) :
  List.length (trace w)
  < List.length (trace (snd (mergePullRequest E n mm del wd false w))).
Proof.
  rewrite mergePullRequest_run. cbn [snd log trace].
  rewrite List.length_app. simpl. lia.
Qed.

(** X3. On plain text the claim about the command line holds: a title without
    double quote, dollar sign or the text [--body], a body without double
    quote, and a file name, base and head without [--body] give a command in
    which the body is only named through [--body-file] and the title is the
    escaped one between single quotes. *)
Lemma createPullRequest_plain title body base head wd (w : World) :
  let f := tempBodyFileName E w in
  let b := dflt base "main" in
  truthy head = true ->
  truthy body = true ->
  truthy title = true ->
  all_chars (not_char (ascii_of_nat 34)) title = true ->
  all_chars (not_char "$") title = true ->
  includes "--body" title = false ->
  all_chars (not_char (ascii_of_nat 34)) body = true ->
  all_chars (not_char "$") f = true ->
  includes "--body" f = false ->
  includes "--body" b = false ->
  includes "--body" head = false ->
  writeFile_ E w f body = Returned tt ->
  trace (snd (createPullRequest E title body base (Some head) wd false w))
  = (trace w
       ++ [EvWriteFile f body;
           EvExec
             (powerShellCommand
                ("gh pr create --title '" ++ escapePowerShellString title
                   ++ "' --body-file " ++ dq ++ f ++ dq
                   ++ " --base " ++ b ++ " --head " ++ head))
             (or_else wd (cwd E));
           EvUnlink f])%list.
Proof.
  cbv zeta. intros Hh Hb Ht Tq Td Tf Bq fd ff bf hf Hw.
  unfold createPullRequest, getGit. unfold try_catch, bind, call, ret.
  cbn [truthy_opt dflt negb]. rewrite Hh. cbn [negb].
  unfold executeGitHubCommand, try_finally, try_catch, bind, exec, call, throw, ret.
  cbn [truthy_opt dflt]. rewrite Hb. cbv zeta.
  unfold writeFileSync. rewrite Hw. cbv beta iota.
  rewrite (plain_text_command title body (tempBodyFileName E w)
             (dflt base "main") head Ht Tq Td Tf Bq fd ff bf hf).
  match goal with
  | |- context [exec_ E ?v ?c ?d] => destruct (exec_ E v c d)
  end;
  (match goal with
   | |- context [cleanup E (Some ?f) ?v] =>
       destruct (cleanup_run f v) as (w' & -> & Hc & _)
   end;
   cbn [snd]; rewrite Hc; cbn [log trace]; now rewrite <- !List.app_assoc).
Qed.
Lemma includes_mergeFlag (n : string) (m : MergeMethod) (d : bool) :
  includes (mergeFlag m) (mergeCommand n m d) = true.
Proof.
  destruct d; [rewrite mergeCommand_keep | rewrite mergeCommand_drop].
  - replace ("gh pr merge " ++ n ++ " " ++ mergeFlag m ++ " --delete-branch")
      with (("gh pr merge " ++ n ++ " ") ++ mergeFlag m ++ " --delete-branch")
      by now rewrite !app_assoc.
    apply includes_app_r.
  - replace ("gh pr merge " ++ n ++ " " ++ mergeFlag m)
      with (("gh pr merge " ++ n ++ " ") ++ mergeFlag m ++ EmptyString)
      by now rewrite app_nil_r, !app_assoc.
    apply includes_app_r.
Qed.

Lemma mergePullRequest_failure_details n mm del wd (w : World) r w' :
  mergePullRequest E n mm del wd false w = (Returned r, w') ->
  success r = false -> details r = None.
Proof.
  rewrite mergePullRequest_run. intros H; inversion H; subst; clear H.
  now destruct (exec_ E w _ _).
Qed.

(** *** The claims about the composite and the merge step *)

(** C2. In a run of the composite that is not a dry run, a failure result of
    [commitAndPush] is returned as it is, in the world that step left: no
    later call was made.  When [commitAndPush] succeeds and
    [createPullRequest] returns a failure result, that result is returned as
    it is, in the world that step left.  A pull-request or merge step that
    is not a dry run always adds a call to the log, so an unchanged world
    means the step was not invoked. *)
Theorem workflow_returns_first_failure files cm t b br base auto wd w r1 w1 :
  commitAndPush E files cm br wd false w = (Returned r1, w1) ->
  (success r1 = false ->
     completeGitWorkflow E files cm t b br base auto wd false w
     = (Returned r1, w1))
  /\ (success r1 = true -> forall r2 w2,
        createPullRequest E t b (Some (dflt base "main")) br wd false w1
          = (Returned r2, w2) ->
        success r2 = false ->
        completeGitWorkflow E files cm t b br base auto wd false w
        = (Returned r2, w2))
  /\ (forall t' b' base' head' wd' v,
        List.length (trace v)
        < List.length
            (trace (snd (createPullRequest E t' b' base' head' wd' false v))))
  /\ (forall n mm del wd' v,
        List.length (trace v)
        < List.length (trace (snd (mergePullRequest E n mm del wd' false v)))).
Proof.
  intros H1. split; [|split; [|split]].
  - intros S1. now apply workflow_stops_at_commit.
  - intros S1 r2 w2 H2 S2. now apply (workflow_stops_at_pr _ _ _ _ _ _ _ _ _ r1 w1).
  - intros. apply createPullRequest_shows.
  - intros. apply mergePullRequest_shows.
Qed.

(** C3. In a run of the composite with [autoMerge] that is not a dry run
    and in which the commit and the pull request succeeded: when the
    returned URL ends in [/pull/] followed by digits, [mergePullRequest] is
    run with those digits, method [merge] and branch deletion, which shows
    as exactly one more command, [gh pr merge <digits> --merge
    --delete-branch]; when the URL has no such ending, the composite ends
    in the world the pull-request step left, and reports success. *)
Theorem auto_merge_follows_url files cm t b br base wd w r1 w1 r2 w2 url :
  commitAndPush E files cm br wd false w = (Returned r1, w1) ->
  success r1 = true ->
  createPullRequest E t b (Some (dflt base "main")) br wd false w1
    = (Returned r2, w2) ->
  success r2 = true ->
  details_url (details r2) = Some url ->
  (forall n, pull_url url n ->
     exists r3,
       mergePullRequest E n (Some Merge) (Some true) wd false w2
       = (Returned r3,
          log (EvExec
                 (powerShellCommand
                    ("gh pr merge " ++ n ++ " --merge --delete-branch"))
                 (or_else wd (cwd E))) w2)
       /\ completeGitWorkflow E files cm t b br base true wd false w
          = (Returned
               (mkResult true "Successfully completed Git workflow"
                  (Some (WorkflowDone (details r1) (details r2) (details r3)))
                  None),
             log (EvExec
                    (powerShellCommand
                       ("gh pr merge " ++ n ++ " --merge --delete-branch"))
                    (or_else wd (cwd E))) w2))
  /\ ((forall n, ~ pull_url url n) ->
      completeGitWorkflow E files cm t b br base true wd false w
      = (Returned
           (mkResult true "Successfully completed Git workflow"
              (Some (WorkflowDone (details r1) (details r2) None)) None),
         w2)).
Proof.
  intros H1 S1 H2 S2 Hu. split.
  - intros n Hp.
    pose proof (mergePullRequest_run n (Some Merge) (Some true) wd w2) as Hm.
    cbv zeta in Hm. cbn [dflt] in Hm. rewrite mergeCommand_keep in Hm.
    cbn [mergeFlag] in Hm.
    match type of Hm with
    | _ = (Returned ?r, ?v) =>
        exists r; split; [exact Hm|];
        apply (workflow_completes files cm t b br base true wd w r1 w1 r2 w2
                 (Some r) v H1 S1 H2 S2)
    end.
    rewrite (autoMergeStep_match r2 wd w2 url n Hu Hp), Hm. reflexivity.
  - intros Hn.
    apply (workflow_completes files cm t b br base true wd w r1 w1 r2 w2 None w2
             H1 S1 H2 S2).
    apply autoMergeStep_skip. intros url' n Hu'.
    rewrite Hu in Hu'; inversion Hu'; subst url'. apply Hn.
Qed.

(** C9. When the merge step of such a run is taken and returns a failure
    result, the composite still reports success with its usual message; the
    error text of the merge step appears nowhere in the result and the
    aggregated details hold no merge payload. *)
Theorem merge_failure_is_dropped files cm t b br base wd w r1 w1 r2 w2 url n r3 w3 :
  commitAndPush E files cm br wd false w = (Returned r1, w1) ->
  success r1 = true ->
  createPullRequest E t b (Some (dflt base "main")) br wd false w1
    = (Returned r2, w2) ->
  success r2 = true ->
  details_url (details r2) = Some url ->
  pull_url url n ->
  mergePullRequest E n (Some Merge) (Some true) wd false w2 = (Returned r3, w3) ->
  success r3 = false ->
  completeGitWorkflow E files cm t b br base true wd false w
  = (Returned
       (mkResult true "Successfully completed Git workflow"
          (Some (WorkflowDone (details r1) (details r2) None)) None),
     w3).
Proof.
  intros H1 S1 H2 S2 Hu Hp H3 S3.
  rewrite (workflow_completes files cm t b br base true wd w r1 w1 r2 w2
             (Some r3) w3 H1 S1 H2 S2).
  - now rewrite (mergePullRequest_failure_details _ _ _ _ _ _ _ H3 S3).
  - now rewrite (autoMergeStep_match r2 wd w2 url n Hu Hp), H3.
Qed.

Lemma delete_flag_only_from_number (n : string) (m : MergeMethod) :
  includes "--delete-branch" (mergeCommand n m false)
  = includes "--delete-branch" n.
Proof.
  rewrite mergeCommand_drop.
  rewrite includes_mergeCommand by (reflexivity || discriminate).
  change (includes "--delete-branch" "gh") with false.
  change (includes "--delete-branch" "pr") with false.
  change (includes "--delete-branch" "merge") with false.
  replace (includes "--delete-branch" (mergeFlag m)) with false
    by now destruct m.
  cbn [orb]. apply orb_false_r.
Qed.

(** A needle whose first code unit lies outside a class does not occur in
    a text that stays inside it. *)
Lemma includes_outside (p : ascii -> bool) (c : ascii) (f s : string) :
  p c = false -> all_chars p s = true -> includes (String c f) s = false.
Proof.
  intros Hc. induction s as [|x s IH]; [reflexivity|].
  cbn [all_chars]. intros H; apply andb_prop in H as [Hx Hs].
  rewrite includes_unfold. cbn [strip_prefix].
  destruct (Ascii.eqb c x) eqn:Ecx.
  - apply Ascii.eqb_eq in Ecx; subst x. congruence.
  - now apply IH.
Qed.

(** Where a flag can sit in a merge command: inside one of its words. *)
Lemma includes_mergeCommand_words (flag n : string) (m : MergeMethod) (d : bool) :
  all_chars (not_char " ") flag = true -> flag <> EmptyString ->
  includes flag (mergeCommand n m d)
  = includes flag "gh" || includes flag "pr" || includes flag "merge"
    || includes flag n || includes flag (mergeFlag m)
    || (d && includes flag "--delete-branch").
Proof.
  intros Hf Hne. destruct d.
  - rewrite mergeCommand_keep.
    replace ("gh pr merge " ++ n ++ " " ++ mergeFlag m ++ " --delete-branch")
      with (("gh pr merge " ++ n ++ " " ++ mergeFlag m)
              ++ String " " "--delete-branch")
      by (now rewrite !app_assoc).
    rewrite (includes_sep flag _ _ " ") by assumption.
    now rewrite includes_mergeCommand by assumption.
  - rewrite mergeCommand_drop, includes_mergeCommand by assumption.
    cbn [andb]. now rewrite orb_false_r.
Qed.

(** C7. A merge of a pull request given by its number that is not a dry
    run executes exactly one command, the wrapped [mergeCommand], which is
    [gh pr merge <prNumber> <merge flag>], followed by [--delete-branch]
    when [deleteBranch] is true or absent.  Of the three merge flags the
    command carries the one of its method and no other: [--squash] for
    squash, [--rebase] for rebase, [--merge] for merge or no method.  The
    text [--delete-branch] occurs in it when [deleteBranch] is true or
    absent, and not at all when it is false. *)
Theorem merge_command_flags n mm del wd (w : World) :
  all_chars is_digit n = true ->
  let method := dflt mm Merge in
  let command := mergeCommand n method (dflt del true) in
  snd (mergePullRequest E n mm del wd false w)
  = log (EvExec (powerShellCommand command) (or_else wd (cwd E))) w
  /\ command
     = "gh pr merge " ++ n ++ " " ++ mergeFlag method
         ++ (if dflt del true then " --delete-branch" else EmptyString)
  /\ (forall m, includes (mergeFlag m) command = true <-> m = method)
  /\ includes "--delete-branch" command = dflt del true.
Proof.
  intros Hn. cbv zeta.
  assert (Hflag : forall c f, is_digit c = false ->
            includes (String c f) n = false).
  { intros c f Hc. now apply (includes_outside is_digit). }
  split; [now rewrite mergePullRequest_run|].
  split.
  { destruct (dflt del true);
      [apply mergeCommand_keep | rewrite mergeCommand_drop, app_nil_r;
                                 reflexivity]. }
  split.
  - intros m.
    destruct m; cbn [mergeFlag];
      rewrite includes_mergeCommand_words by (reflexivity || discriminate);
      rewrite Hflag by reflexivity;
      destruct (dflt mm Merge), (dflt del true); vm_compute;
      split; congruence.
  - rewrite includes_mergeCommand_words by (reflexivity || discriminate).
    rewrite Hflag by reflexivity.
    destruct (dflt mm Merge), (dflt del true); reflexivity.
Qed.

(** The [finally] block never throws; it leaves the world as the removal
    it attempts leaves it. *)
Lemma cleanup_attempt (E0 : Env) (f : string) (v : World) :
  cleanup E0 (Some f) v = (Returned tt, snd (unlinkSync E0 f v)).
Proof.
  unfold cleanup, try_catch, ret.
  now destruct (unlinkSync E0 f v) as [[e|[]] v'].
Qed.

Lemma unlinkSync_trace (E0 : Env) (p : string) (v : World) :
  trace (snd (unlinkSync E0 p v)) = (trace v ++ [EvUnlink p])%list.
Proof.
  unfold unlinkSync, log.
  destruct (exists_file p (files v)); [destruct (unlink_ E0 v p)|]; reflexivity.
Qed.

Lemma unlinkSync_gone (E0 : Env) (p : string) (v : World) :
  fst (unlinkSync E0 p v) = Returned tt ->
  exists_file p (files (snd (unlinkSync E0 p v))) = false.
Proof.
  unfold unlinkSync. destruct (exists_file p (files v)); [|discriminate].
  destruct (unlink_ E0 v p); [discriminate|].
  intros _. apply exists_remove_file.
Qed.

Lemma unlinkSync_stays (E0 : Env) (p : string) (v : World) (e : JsError) :
  fst (unlinkSync E0 p v) = Threw e ->
  files (snd (unlinkSync E0 p v)) = files v.
Proof.
  unfold unlinkSync. destruct (exists_file p (files v)); [|reflexivity].
  destruct (unlink_ E0 v p); [reflexivity | discriminate].
Qed.

(** What the removal of the body file looks like from outside
    [executeGitHubCommand]. *)
Lemma executeGitHubCommand_cleanup base title body wd (w : World) :
  exists r w' evs,
    executeGitHubCommand E base title body wd w = (r, w')
    /\ trace w' = (trace w ++ evs)%list
    /\ (forall u,
          fst (executeGitHubCommand (with_unlink E u) base title body wd w) = r)
    /\ (forall p c, In (EvWriteFile p c) evs ->
          exists evs' v,
            evs = (evs' ++ [EvUnlink p])%list
            /\ trace v = (trace w ++ evs')%list
            /\ (files v = files w
                \/ files v = (p, c) :: remove_file p (files w))
            /\ w' = snd (unlinkSync E p v)).
Proof.
  unfold executeGitHubCommand, try_finally, try_catch, bind, exec, call,
    throw, ret.
  destruct (truthy_opt body).
  - cbv zeta.
    change (tempBodyFileName (with_unlink E ?u) w) with (tempBodyFileName E w).
    set (f := tempBodyFileName E w). set (b := dflt body EmptyString).
    assert (Hcl : forall u v,
              fst (cleanup (with_unlink E u) (Some f) v) = Returned tt).
    { intros u v. now rewrite cleanup_attempt. }
    unfold writeFileSync. cbn [with_unlink writeFile_ exec_ cwd].
    destruct (writeFile_ E w f b) as [e|[]] eqn:Ew.
    + rewrite cleanup_attempt.
      exists (Threw (commandFailed e)),
        (snd (unlinkSync E f (log (EvWriteFile f b) w))),
        [EvWriteFile f b; EvUnlink f].
      split; [reflexivity|]. split.
      { unfold unlinkSync, log.
        destruct (exists_file f _); [destruct (unlink_ E _ f)|];
          cbn [snd trace]; now rewrite <- List.app_assoc. }
      split.
      { intros u.
        specialize (Hcl u (log (EvWriteFile f b) w)).
        destruct (cleanup (with_unlink E u) (Some f) (log (EvWriteFile f b) w))
          as [[x|[]] v']; [discriminate Hcl | reflexivity]. }
      intros p c [H|[H|[]]]; inversion H; subst p c.
      exists [EvWriteFile f b], (log (EvWriteFile f b) w).
      split; [reflexivity|]. split; [reflexivity|]. split; [now left | reflexivity].
    + match goal with
      | |- context [exec_ E ?w1 ?c ?d] =>
          set (w1' := w1); set (cmd := c); set (dir := d)
      end.
      exists (match exec_ E w1' cmd dir with
              | Threw e => Threw (commandFailed e)
              | Returned a => Returned a
              end),
        (snd (unlinkSync E f (log (EvExec cmd dir) w1'))),
        [EvWriteFile f b; EvExec cmd dir; EvUnlink f].
      split.
      { destruct (exec_ E w1' cmd dir); now rewrite cleanup_attempt. }
      split.
      { unfold unlinkSync, log.
        destruct (exists_file f _); [destruct (unlink_ E _ f)|];
          cbn [snd trace]; subst w1'; cbn [trace];
          now rewrite <- !List.app_assoc. }
      split.
      { intros u.
        destruct (exec_ E w1' cmd dir);
          match goal with
          | |- context [cleanup (with_unlink E u) (Some f) ?v] =>
              specialize (Hcl u v);
              destruct (cleanup (with_unlink E u) (Some f) v) as [[x|[]] v'];
              [discriminate Hcl | reflexivity]
          end. }
      intros p c [H|[H|[H|[]]]]; inversion H; subst p c.
      exists [EvWriteFile f b; EvExec cmd dir], (log (EvExec cmd dir) w1').
      split; [reflexivity|]. split.
      { subst w1'. cbn [log trace]. now rewrite <- List.app_assoc. }
      split; [right; reflexivity | reflexivity].
  - cbv zeta. cbn [cleanup ret with_unlink exec_ cwd].
    match goal with
    | |- context [exec_ E w ?c ?d] => set (cmd := c); set (dir := d)
    end.
    exists (match exec_ E w cmd dir with
            | Threw e => Threw (commandFailed e)
            | Returned a => Returned a
            end), (log (EvExec cmd dir) w), [EvExec cmd dir].
    split; [now destruct (exec_ E w cmd dir)|].
    split; [reflexivity|].
    split; [intros u; now destruct (exec_ E w cmd dir)|].
    intros p c [H|[]]; discriminate.
Qed.

(** C6, as amended. A run of [createPullRequest] that is not a dry run
    returns a result on every path, and that result is the same whatever
    the removal of files answers: an error of the removal is ignored.
    Whenever the run wrote a body file, whether the write went through or
    threw and whether the command succeeded or failed, the removal of that
    file is the last call it made, and the world it ends in is the one this
    removal leaves: the file is gone when the removal went through, and the
    files are as they were before it when it failed. *)
Theorem body_file_removal_is_last title body base head wd (w : World) :
  exists r w' evs,
    createPullRequest E title body base head wd false w = (Returned r, w')
    /\ trace w' = (trace w ++ evs)%list
    /\ (forall u,
          fst (createPullRequest (with_unlink E u) title body base head wd
                 false w) = Returned r)
    /\ (forall p c, In (EvWriteFile p c) evs ->
          exists evs' v,
            evs = (evs' ++ [EvUnlink p])%list
            /\ trace v = (trace w ++ evs')%list
            /\ (files v = files w
                \/ files v = (p, c) :: remove_file p (files w))
            /\ w' = snd (unlinkSync E p v)
            /\ (fst (unlinkSync E p v) = Returned tt ->
                exists_file p (files w') = false)
            /\ (forall e, fst (unlinkSync E p v) = Threw e ->
                files w' = files v)).
Proof.
  assert (Fin : forall p c (w' : World) (evs : list Event) (w1 : World) pre,
            trace w1 = (trace w ++ pre)%list -> files w1 = files w ->
            (exists evs' v,
               evs = (evs' ++ [EvUnlink p])%list
               /\ trace v = (trace w1 ++ evs')%list
               /\ (files v = files w1
                   \/ files v = (p, c) :: remove_file p (files w1))
               /\ w' = snd (unlinkSync E p v)) ->
            exists evs' v,
              (pre ++ evs)%list = (evs' ++ [EvUnlink p])%list
              /\ trace v = (trace w ++ evs')%list
              /\ (files v = files w
                  \/ files v = (p, c) :: remove_file p (files w))
              /\ w' = snd (unlinkSync E p v)
              /\ (fst (unlinkSync E p v) = Returned tt ->
                  exists_file p (files w') = false)
              /\ (forall e, fst (unlinkSync E p v) = Threw e ->
                  files w' = files v)).
  { intros p c w' evs w1 pre Ht Hf (evs' & v & -> & Hv & Hfv & ->).
    exists (pre ++ evs')%list, v.
    split; [now rewrite List.app_assoc|].
    split; [now rewrite Hv, Ht, List.app_assoc|].
    split; [now rewrite <- Hf|].
    split; [reflexivity|].
    split; [apply unlinkSync_gone | apply unlinkSync_stays]. }
  unfold createPullRequest, getGit. unfold try_catch, bind, call, ret.
  cbn [with_unlink simpleGit_ revparse_ cwd].
  destruct (truthy_opt head); cbn [negb].
  - match goal with
    | |- context [executeGitHubCommand E ?c ?t ?b ?d w] =>
        destruct (executeGitHubCommand_cleanup c t b d w)
          as (r & w' & evs & Hr & Ht & Hu & Hw)
    end.
    rewrite Hr.
    exists (match r with
            | Threw e =>
                mkResult false "Failed to create pull request" None
                  (Some ("Failed to create pull request: " ++ e_message e))
            | Returned out =>
                mkResult true "Successfully created pull request"
                  (Some (PullRequestDone (trim (stdout out)) title
                           (dflt base "main") (dflt head EmptyString))) None
            end), w', evs.
    split; [now destruct r|]. split; [exact Ht|]. split.
    + intros u. specialize (Hu u).
      match goal with
      | |- context [executeGitHubCommand (with_unlink E u) ?c ?t ?b ?d w] =>
          destruct (executeGitHubCommand (with_unlink E u) c t b d w)
            as [r' v']
      end.
      cbn [fst] in Hu. subst r'. now destruct r.
    + intros p c Hin.
      apply (Fin p c w' evs w []); [now rewrite List.app_nil_r | reflexivity|].
      exact (Hw p c Hin).
  - set (dir := or_else wd (cwd E)).
    destruct (simpleGit_ E w dir) as [e|[]].
    { eexists; eexists; exists [EvSimpleGit dir].
      split; [reflexivity | split; [reflexivity | split; [reflexivity|]]].
      intros p c [H|[]]; discriminate. }
    set (w1 := log (EvSimpleGit dir) w).
    destruct (revparse_ E w1 dir ["--abbrev-ref"; "HEAD"]) as [e|hb].
    { eexists; eexists;
        exists [EvSimpleGit dir; EvRevparse dir ["--abbrev-ref"; "HEAD"]].
      split; [reflexivity | split; [|split; [reflexivity|]]].
      - subst w1. cbn [log trace]. now rewrite <- List.app_assoc.
      - intros p c [H|[H|[]]]; discriminate. }
    set (w2 := log (EvRevparse dir ["--abbrev-ref"; "HEAD"]) w1).
    match goal with
    | |- context [executeGitHubCommand E ?c ?t ?b ?d w2] =>
        destruct (executeGitHubCommand_cleanup c t b d w2)
          as (r & w' & evs & Hr & Ht & Hu & Hw)
    end.
    rewrite Hr.
    exists (match r with
            | Threw e =>
                mkResult false "Failed to create pull request" None
                  (Some ("Failed to create pull request: " ++ e_message e))
            | Returned out =>
                mkResult true "Successfully created pull request"
                  (Some (PullRequestDone (trim (stdout out)) title
                           (dflt base "main") hb)) None
            end), w',
      ([EvSimpleGit dir; EvRevparse dir ["--abbrev-ref"; "HEAD"]] ++ evs)%list.
    split; [now destruct r|]. split.
    { rewrite Ht. subst w2 w1. cbn [log trace]. now rewrite <- !List.app_assoc. }
    split.
    + intros u. specialize (Hu u).
      match goal with
      | |- context [executeGitHubCommand (with_unlink E u) ?c ?t ?b ?d w2] =>
          destruct (executeGitHubCommand (with_unlink E u) c t b d w2)
            as [r' v']
      end.
      cbn [fst] in Hu. subst r'. now destruct r.
    + intros p c Hin.
      assert (Hin' : In (EvWriteFile p c) evs).
      { destruct Hin as [H|[H|H]]; [discriminate | discriminate | exact H]. }
      apply (Fin p c w' evs w2
               [EvSimpleGit dir; EvRevparse dir ["--abbrev-ref"; "HEAD"]]).
      * subst w2 w1. cbn [log trace]. now rewrite <- List.app_assoc.
      * reflexivity.
      * exact (Hw p c Hin').
Qed.

(** *** Dry runs *)

Lemma completeGitWorkflow_dry files cm t b br base auto wd (w : World) :
  completeGitWorkflow E files cm t b br base auto wd true w
  = (Returned (mkResult true "Dry run: Would execute complete Git workflow"
                 (Some (WorkflowPreview files cm t b br (dflt base "main") auto))
                 None), w).
Proof. reflexivity. Qed.

(** [commitAndPush] builds the simple-git handle before it looks at
    [dryRun]: the dry run echoes its arguments when the handle can be
    built ... *)
Lemma commitAndPush_dry files cm br wd (w : World) :
  simpleGit_ E w (or_else wd (cwd E)) = Returned tt ->
  commitAndPush E files cm br wd true w
  = (Returned (mkResult true "Dry run: Would commit and push changes"
                 (Some (CommitPreview files cm br wd)) None),
     log (EvSimpleGit (or_else wd (cwd E))) w).
Proof.
  intros H. unfold commitAndPush, getGit. unfold try_catch, bind, call, ret.
  cbv zeta. now rewrite H.
Qed.

(** ... and reports a failure when it cannot. *)
Lemma commitAndPush_dry_no_handle files cm br wd (w : World) (e : JsError) :
  simpleGit_ E w (or_else wd (cwd E)) = Threw e ->
  commitAndPush E files cm br wd true w
  = (Returned (mkResult false "Failed to commit and push" None
                 (Some (e_message e))),
     log (EvSimpleGit (or_else wd (cwd E))) w).
Proof.
  intros H. unfold commitAndPush, getGit. unfold try_catch, bind, call, ret.
  cbv zeta. now rewrite H.
Qed.

(** *** The branch step of [commitAndPush] *)

(** C8. In a run of [commitAndPush] that is not a dry run, in a repository
    in working order and with a branch name given: the first call after
    the preliminaries is the create-and-switch of that branch
    ([checkoutBranch(branch, 'HEAD')]); when it fails, the next call is the
    plain switch ([checkout(branch)]) and no other checkout call follows;
    when the switch fails as well, the result is a failure whose error
    names the branch and the cause of the failed switch, and the run ends
    right there: nothing is staged, committed or pushed, and nothing is
    retried. *)
Theorem branch_create_then_switch files cm b wd (w : World) :
  truthy b = true ->
  ready_repository E wd w ->
  let dir := or_else wd (cwd E) in
  let w3 := entered E wd w in
  let w4 := log (EvCheckoutBranch dir b "HEAD") w3 in
  let w5 := log (EvCheckout dir b) w4 in
  exists r w',
    commitAndPush E files cm (Some b) wd false w = (Returned r, w')
    /\ (exists rest, trace w' = (trace w4 ++ rest)%list
          /\ (checkoutBranch_ E w3 dir b "HEAD" = Returned tt ->
              forallb (fun ev => negb (is_checkout ev)) rest = true))
    /\ (forall e1, checkoutBranch_ E w3 dir b "HEAD" = Threw e1 ->
          (exists rest, trace w' = (trace w5 ++ rest)%list
             /\ forallb (fun ev => negb (is_checkout ev)) rest = true)
          /\ (forall e2, checkout_ E w4 dir b = Threw e2 ->
                r = mkResult false "Failed to commit and push" None
                      (Some ("Failed to create or switch to branch " ++ b
                               ++ ": " ++ toString e2))
                /\ w' = w5)).
Proof.
  intros Hb (H0 & H1 & H2). cbv zeta. unfold entered. cbv zeta.
  set (dir := or_else wd (cwd E)) in *.
  unfold commitAndPush, getGit. unfold try_catch, bind, call, ret.
  cbv zeta. fold dir. rewrite H0. cbv beta iota. rewrite H1.
  cbn [negb]. cbv beta iota. rewrite H2. cbv beta iota.
  cbn [truthy_opt dflt]. rewrite Hb. cbv beta iota.
  set (w3 := log (EvStatus dir) (log (EvCheckIsRepo dir) (log (EvSimpleGit dir) w))).
  destruct (checkoutBranch_ E w3 dir b "HEAD") as [e1|[]] eqn:Hc1.
  - cbv beta iota.
    set (w4 := log (EvCheckoutBranch dir b "HEAD") w3).
    destruct (checkout_ E w4 dir b) as [e2|[]] eqn:Hc2.
    + cbv beta iota. eexists; eexists; split; [reflexivity|]. split.
      * exists [EvCheckout dir b]. split; [reflexivity | discriminate].
      * intros e1' He1. split.
        -- exists []. split; [now rewrite List.app_nil_r | reflexivity].
        -- intros e2' He2. inversion He2; subst. split; reflexivity.
    + answers.
      all: eexists; eexists; (split; [reflexivity|]); cbn [log trace]; split.
      all: try (eexists; split;
                [rewrite <- !List.app_assoc; reflexivity | discriminate]).
      all: intros e1' _; (split; [|discriminate]).
      all: eexists;
        (split; [rewrite <- !List.app_assoc; cbn [List.app]; reflexivity
                | reflexivity]).
  - answers.
    all: eexists; eexists; (split; [reflexivity|]); cbn [log trace]; split.
    all: try discriminate.
    all: eexists;
      (split; [rewrite <- !List.app_assoc; cbn [List.app]; reflexivity
              | intros _; reflexivity]).
Qed.

(** *** The shape of the results *)

Lemma commitAndPush_shape files cm br wd dry (w : World) :
  exists r w',
    commitAndPush E files cm br wd dry w = (Returned r, w')
    /\ failure_shape r
    /\ (git_errors_described E ->
        forall e, error r = Some e -> e <> EmptyString).
Proof.
  unfold commitAndPush, getGit. unfold try_catch, bind, call, ret.
  destruct dry; destruct (truthy_opt br); answers.
  all: eexists; eexists; (split; [reflexivity|]); unfold failure_shape;
    cbn [success error details];
    (split; [split; [split; congruence | congruence]|]).
  all: intros (G1 & G2 & G3 & G4 & G5 & G6 & G7) x Hx; inversion Hx; subst x;
    try discriminate; eauto.
Qed.

Lemma createPullRequest_shape title body base head wd dry (w : World) :
  exists r w',
    createPullRequest E title body base head wd dry w = (Returned r, w')
    /\ failure_shape r
    /\ (forall e, error r = Some e -> e <> EmptyString).
Proof.
  unfold createPullRequest, getGit. unfold try_catch, bind, call, ret.
  destruct dry; destruct (truthy_opt head); answers;
    try match goal with
    | |- context [executeGitHubCommand E ?c ?t ?b ?d ?v] =>
        destruct (executeGitHubCommand E c t b d v) as [[?|?] ?]
    end.
  all: eexists; eexists; (split; [reflexivity|]); unfold failure_shape;
    cbn [success error details];
    (split; [split; [split; congruence | congruence]|]).
  all: intros x Hx; inversion Hx; subst x; discriminate.
Qed.

Lemma mergePullRequest_shape n mm del wd dry (w : World) :
  exists r w',
    mergePullRequest E n mm del wd dry w = (Returned r, w')
    /\ failure_shape r
    /\ (forall e, error r = Some e -> e <> EmptyString).
Proof.
  destruct dry; [rewrite mergePullRequest_dry | rewrite mergePullRequest_run];
    cbv zeta.
  2: destruct (exec_ E w _ _).
  all: eexists; eexists; (split; [reflexivity|]); unfold failure_shape;
    cbn [success error details];
    (split; [split; [split; congruence | congruence]|]).
  all: intros x Hx; inversion Hx; subst x; discriminate.
Qed.

Lemma autoMergeStep_returns auto r2 wd (w2 : World) :
  exists mr w3, autoMergeStep E auto r2 wd w2 = (Returned mr, w3).
Proof.
  unfold autoMergeStep.
  destruct (auto && truthy_opt (details_url (details r2))); [|unfold ret; eauto].
  destruct (search re_pull _) as [f|]; [|unfold ret; eauto].
  unfold bind, ret.
  destruct (mergePullRequest_returns (group1 f) (Some Merge) (Some true) wd false w2)
    as (r & w3 & ->).
  eauto.
Qed.

Lemma completeGitWorkflow_shape files cm t b br base auto wd dry (w : World) :
  exists r w',
    completeGitWorkflow E files cm t b br base auto wd dry w = (Returned r, w')
    /\ failure_shape r
    /\ (git_errors_described E ->
        forall e, error r = Some e -> e <> EmptyString).
Proof.
  destruct dry.
  { rewrite completeGitWorkflow_dry. eexists; eexists; split; [reflexivity|].
    unfold failure_shape; cbn [success error details].
    split; [split; [split; congruence | congruence]|]. intros _ x Hx; discriminate. }
  destruct (commitAndPush_shape files cm br wd false w) as (r1 & w1 & H1 & F1 & N1).
  destruct (success r1) eqn:S1.
  2:{ exists r1, w1. split; [|auto].
      now apply workflow_stops_at_commit. }
  destruct (createPullRequest_shape t b (Some (dflt base "main")) br wd false w1)
    as (r2 & w2 & H2 & F2 & N2).
  destruct (success r2) eqn:S2.
  2:{ exists r2, w2. split; [|auto].
      now apply (workflow_stops_at_pr _ _ _ _ _ _ _ _ _ r1 w1). }
  destruct (autoMergeStep_returns auto r2 wd w2) as (mr & w3 & H3).
  eexists; eexists; split;
    [apply (workflow_completes _ _ _ _ _ _ _ _ _ r1 w1 r2 w2 mr w3); assumption|].
  unfold failure_shape; cbn [success error details].
  split; [split; [split; congruence | congruence]|]. intros _ x Hx; discriminate.
Qed.

(** C1. Every invocation of one of the four operations returns a result
    (it never throws) in which the error is a non-empty text exactly when
    [success] is false, and the details are absent whenever [success] is
    false; the exceptions of the version-control collaborator are taken to
    carry a message, as those of simple-git do, since the catch-all of
    [commitAndPush] hands that message on as it is. *)
Theorem result_invariant (i : Invocation) (w : World) :
  git_errors_described E ->
  exists r w', run E i w = (Returned r, w') /\ stated_invariant r.
Proof.
  intros G.
  assert (S : forall r, failure_shape r ->
            (forall e, error r = Some e -> e <> EmptyString) ->
            stated_invariant r).
  { intros r [F1 F2] N. split; [|exact F2]. split.
    - intros Hs. apply F1 in Hs. destruct (error r) as [e|] eqn:Er.
      + exists e. split; [reflexivity | now apply N].
      + contradiction.
    - intros (e & He & _). apply F1. rewrite He. discriminate. }
  destruct i as [f m b d dry | t b base head d dry | n m del d dry
                | f m t b br base auto d dry]; cbn [run].
  - destruct (commitAndPush_shape f m b d dry w) as (r & w' & H & F & N).
    exists r, w'. split; [exact H | apply S; auto].
  - destruct (createPullRequest_shape t b base head d dry w)
      as (r & w' & H & F & N).
    exists r, w'. split; [exact H | apply S; auto].
  - destruct (mergePullRequest_shape n m del d dry w)
      as (r & w' & H & F & N).
    exists r, w'. split; [exact H | apply S; auto].
  - destruct (completeGitWorkflow_shape f m t b br base auto d dry w)
      as (r & w' & H & F & N).
    exists r, w'. split; [exact H | apply S; auto].
Qed.

(** X14. Dry runs, all four operations: the arguments are echoed and the world
    is left as it was, except that [commitAndPush] first builds its handle
    and only gets to the echo when that goes through. *)
Lemma dry_run_echo (i : Invocation) (w : World) :
  dry i = true ->
  match i with
  | CommitAndPush _ _ _ d _ =>
      simpleGit_ E w (or_else d (cwd E)) = Returned tt ->
      run E i w = (Returned (preview i), log (EvSimpleGit (or_else d (cwd E))) w)
  | _ => run E i w = (Returned (preview i), w)
  end.
Proof.
  destruct i; cbn [dry run preview]; intros ->.
  - apply commitAndPush_dry.
  - apply createPullRequest_dry.
  - apply mergePullRequest_dry.
  - apply completeGitWorkflow_dry.
Qed.

End Runs.

(** *** The claims on concrete runs *)

Lemma url42_shape : pull_url url42 "42".
Proof.
  exists "https://github.com/org/repo".
  split; [reflexivity | split; [discriminate | reflexivity]].
Qed.

Lemma issue42_shape (n : string) : ~ pull_url issue42 n.
Proof.
  intros H. apply search_pull_iff in H as (f & Hf & _).
  vm_compute in Hf. discriminate.
Qed.

(** The assumption on the exceptions is needed: were the validity check to
    throw an error without a message, the result would be a failure whose
    error is the empty text. *)
Lemma error_may_be_empty :
  run mute (CommitAndPush [] "fix: typo" None None false) w0
  = (Returned (mkResult false "Failed to commit and push" None
                 (Some EmptyString)),
     mkWorld [EvSimpleGit "/repo"; EvCheckIsRepo "/repo"] [])
  /\ (stated_invariant
        (mkResult false "Failed to commit and push" None (Some EmptyString))
      -> False).
Proof.
  split; [reflexivity|].
  intros [[H _] _]. destruct (H eq_refl) as (e & He & Hne).
  inversion He; subst e. now apply Hne.
Qed.

Lemma result_invariant_witness :
  git_errors_described stuck_branch
  /\ exists r w',
      run stuck_branch
        (CommitAndPush ["a.txt"] "fix: typo" (Some "topic") None false) w0
      = (Returned r, w')
      /\ stated_invariant r
      /\ success r = false.
Proof.
  assert (G : git_errors_described stuck_branch).
  { repeat split; intros; discriminate. }
  split; [exact G|].
  destruct (result_invariant stuck_branch
              (CommitAndPush ["a.txt"] "fix: typo" (Some "topic") None false)
              w0 G)
    as (r & w' & H & I).
  exists r, w'. split; [exact H|]. split; [exact I|].
  vm_compute in H. now inversion H.
Defined.

Lemma workflow_returns_first_failure_witness :
  completeGitWorkflow no_repo ["a.txt"] "fix: typo" "Title" "Body"
    None None true None false w0
  = (Returned (mkResult false "Failed to commit and push" None
                 (Some "Not a Git repository")),
     mkWorld [EvSimpleGit "/repo"; EvCheckIsRepo "/repo"] [])
  /\ completeGitWorkflow cli_down ["a.txt"] "fix: typo" "Title" "Body"
       None None true None false w0
     = (Returned create_failed, mkWorld (commit_events ++ create_events) []).
Proof.
  split.
  - apply (proj1
             (workflow_returns_first_failure no_repo ["a.txt"] "fix: typo"
                "Title" "Body" None None true None w0
                (mkResult false "Failed to commit and push" None
                   (Some "Not a Git repository"))
                (mkWorld [EvSimpleGit "/repo"; EvCheckIsRepo "/repo"] [])
                eq_refl));
      reflexivity.
  - apply (proj1 (proj2
             (workflow_returns_first_failure cli_down ["a.txt"] "fix: typo"
                "Title" "Body" None None true None w0
                committed (mkWorld commit_events []) eq_refl)));
      reflexivity.
Defined.

Lemma auto_merge_follows_url_witness :
  completeGitWorkflow quiet ["a.txt"] "fix: typo" "Title" "Body"
    None None true None false w0
  = (Returned (workflow_done url42 (Some (MergeDone "42" Merge (url42 ++ nl)))),
     mkWorld (commit_events ++ create_events ++ [EvExec merge_command "/repo"])
       [])
  /\ completeGitWorkflow odd_url ["a.txt"] "fix: typo" "Title" "Body"
       None None true None false w0
     = (Returned (workflow_done issue42 None),
        mkWorld (commit_events ++ create_events) []).
Proof.
  split.
  - destruct (proj1
               (auto_merge_follows_url quiet ["a.txt"] "fix: typo" "Title"
                  "Body" None None None w0
                  committed (mkWorld commit_events [])
                  (created url42) (mkWorld (commit_events ++ create_events) [])
                  url42 eq_refl eq_refl eq_refl eq_refl eq_refl)
               "42" url42_shape) as (r3 & Hm & Hc).
    vm_compute in Hm. inversion Hm; subst r3. exact Hc.
  - exact (proj2
             (auto_merge_follows_url odd_url ["a.txt"] "fix: typo" "Title"
                "Body" None None None w0
                committed (mkWorld commit_events [])
                (created issue42) (mkWorld (commit_events ++ create_events) [])
                issue42 eq_refl eq_refl eq_refl eq_refl eq_refl)
             issue42_shape).
Defined.

Lemma merge_failure_is_dropped_witness :
  completeGitWorkflow merge_down ["a.txt"] "fix: typo" "Title" "Body"
    None None true None false w0
  = (Returned (workflow_done url42 None),
     mkWorld (commit_events ++ create_events ++ [EvExec merge_command "/repo"])
       []).
Proof.
  apply (merge_failure_is_dropped merge_down ["a.txt"] "fix: typo" "Title"
           "Body" None None None w0
           committed (mkWorld commit_events [])
           (created url42) (mkWorld (commit_events ++ create_events) [])
           url42 "42" merge_failed
           (mkWorld (commit_events ++ create_events
                       ++ [EvExec merge_command "/repo"]) []));
    try reflexivity.
  exact url42_shape.
Defined.

Lemma branch_create_then_switch_witness :
  commitAndPush stuck_branch ["a.txt"] "fix: typo" (Some "topic") None false w0
  = (Returned
       (mkResult false "Failed to commit and push" None
          (Some ("Failed to create or switch to branch topic: "
                   ++ "Error: pathspec 'topic' did not match"))),
     mkWorld [EvSimpleGit "/repo"; EvCheckIsRepo "/repo"; EvStatus "/repo";
              EvCheckoutBranch "/repo" "topic" "HEAD";
              EvCheckout "/repo" "topic"] []).
Proof.
  destruct (branch_create_then_switch stuck_branch ["a.txt"] "fix: typo"
              "topic" None w0 eq_refl (conj eq_refl (conj eq_refl eq_refl)))
    as (r & w' & H & _ & H3).
  destruct (H3 (Error "pathspec 'topic' did not match") eq_refl) as [_ H4].
  destruct (H4 (Error "pathspec 'topic' did not match") eq_refl) as [Hr Hw].
  rewrite H, Hr, Hw. reflexivity.
Defined.

(** The file is held open elsewhere: the removal throws, the error is
    ignored, the pull request is reported as created and the body file is
    still there. *)
Lemma busy_body_file_survives :
  createPullRequest busy_file "Title" "Body" None (Some "feature") None false w0
  = (Returned (created url42),
     mkWorld [EvWriteFile body_file "Body"; EvExec create_command "/repo";
              EvUnlink body_file]
       [(body_file, "Body")])
  /\ exists_file body_file [(body_file, "Body")] = true.
Proof. split; reflexivity. Qed.

Lemma body_file_removal_is_last_witness :
  createPullRequest quiet "Title" "Body" None (Some "feature") None false w0
  = (Returned (created url42),
     mkWorld [EvWriteFile body_file "Body"; EvExec create_command "/repo";
              EvUnlink body_file] [])
  /\ fst (createPullRequest
            (with_unlink quiet (fun _ _ => Threw (Error "EBUSY")))
            "Title" "Body" None (Some "feature") None false w0)
     = Returned (created url42)
  /\ exists evs' v,
       [EvWriteFile body_file "Body"; EvExec create_command "/repo";
        EvUnlink body_file]
       = (evs' ++ [EvUnlink body_file])%list
       /\ trace v = evs'
       /\ mkWorld [EvWriteFile body_file "Body"; EvExec create_command "/repo";
                   EvUnlink body_file] []
          = snd (unlinkSync quiet body_file v).
Proof.
  assert (Q : createPullRequest quiet "Title" "Body" None (Some "feature")
                None false w0
              = (Returned (created url42),
                 mkWorld [EvWriteFile body_file "Body";
                          EvExec create_command "/repo"; EvUnlink body_file]
                   [])).
  { vm_compute. reflexivity. }
  destruct (body_file_removal_is_last quiet "Title" "Body" None
              (Some "feature") None w0) as (r & w' & evs & H & Ht & Hu & Hw).
  rewrite Q in H. inversion H; subst r w'. cbn [trace w0 List.app] in Ht.
  subst evs.
  split; [exact Q|]. split; [apply Hu|].
  destruct (Hw body_file "Body" (or_introl eq_refl))
    as (evs' & v & He & Hv & _ & Hs & _).
  exists evs', v. auto.
Defined.

Lemma merge_command_flags_witness :
  snd (mergePullRequest quiet "42" (Some Squash) (Some false) None false w0)
  = log (EvExec (powerShellCommand "gh pr merge 42 --squash") "/repo") w0
  /\ mergeCommand "42" Squash false = "gh pr merge 42 --squash"
  /\ (forall m,
        includes (mergeFlag m) (mergeCommand "42" Squash false) = true
        <-> m = Squash)
  /\ includes "--delete-branch" (mergeCommand "42" Squash false) = false.
Proof.
  apply (merge_command_flags quiet "42" (Some Squash) (Some false) None w0).
  reflexivity.
Defined.

(** The number is interpolated as it is: a text that is not a number and
    carries the flag text brings it into the command. *)
Lemma delete_flag_from_number :
  snd (mergePullRequest quiet "7 --delete-branch" None (Some false) None
         false w0)
  = mkWorld
      [EvExec (powerShellCommand "gh pr merge 7 --delete-branch --merge")
         "/repo"] []
  /\ includes "--delete-branch" (mergeCommand "7 --delete-branch" Merge false)
     = true.
Proof. split; reflexivity. Qed.

(** C4. A dry run of [commitAndPush] on a working directory that does not
    exist: the handle is built before [dryRun] is looked at, simple-git
    refuses the directory, and the catch-all turns that into a failure
    result instead of the echo of the arguments. *)
Theorem dry_run_commit_without_directory :
  commitAndPush no_dir [] "fix: typo" None (Some "/no/such/dir") true w0
  = (Returned
       (mkResult false "Failed to commit and push" None
          (Some "Cannot use simple-git on a directory that does not exist")),
     mkWorld [EvSimpleGit "/no/such/dir"] []).
Proof. reflexivity. Qed.

(** C10. A dry run of [commitAndPush] never reaches the validity check: in
    a directory that is not a repository it succeeds with nothing but the
    construction of the handle in the log.  The construction itself is on
    the dry-run path, though, and where it throws (the directory does not
    exist) the dry run fails. *)
Theorem dry_run_commit_outside_repository :
  commitAndPush no_repo ["a.txt"] "fix: typo" (Some "topic")
    (Some "/not/a/repo") true w0
  = (Returned
       (mkResult true "Dry run: Would commit and push changes"
          (Some (CommitPreview ["a.txt"] "fix: typo" (Some "topic")
                   (Some "/not/a/repo")))
          None),
     mkWorld [EvSimpleGit "/not/a/repo"] [])
  /\ commitAndPush no_dir ["a.txt"] "fix: typo" (Some "topic")
       (Some "/no/such/dir") true w0
     = (Returned
          (mkResult false "Failed to commit and push" None
             (Some "Cannot use simple-git on a directory that does not exist")),
        mkWorld [EvSimpleGit "/no/such/dir"] []).
Proof. split; reflexivity. Qed.

(** C5. A body with a double quote in it: the first replacement stops at
    that quote, so what follows it in the body stays in the command line
    that is executed.  The same happens to a title with a double quote:
    only the part before the quote is replaced by the escaped title, the
    rest stays as it was written. *)
Theorem quoted_text_stays_inline :
  trace (snd (createPullRequest quiet "Fix" quoted_body None (Some "feature")
                None false w0))
  = [EvWriteFile body_file quoted_body;
     EvExec
       (powerShellCommand
          ("gh pr create --title 'Fix' --body-file " ++ dq ++ body_file ++ dq
             ++ "; calc; " ++ dq ++ dq ++ " --base main --head feature"))
       "/repo";
     EvUnlink body_file]
  /\ trace (snd (createPullRequest quiet quoted_title "Body" None
                   (Some "feature") None false w0))
     = [EvWriteFile body_file "Body";
        EvExec
          (powerShellCommand
             ("gh pr create --title 'a" ++ dq ++ dq ++ "; calc; " ++ dq ++ dq
                ++ "'; calc; " ++ dq ++ dq
                ++ " --body-file " ++ dq ++ body_file ++ dq
                ++ " --base main --head feature"))
          "/repo";
        EvUnlink body_file].
Proof. split; reflexivity. Qed.

End WorkflowFacts.

(* ===================================================================== *)
(** ** Facts about escaping and trimming *)
(* ===================================================================== *)

Module TextFacts.
Import Js Regex Host Workflow Props JsFacts RegexFacts WorkflowFacts.

(** *** [escapePowerShellString], one code unit at a time *)

(** One global replacement with a template that holds no pattern. *)
Lemma replaceAllChar_cons c tmpl x (r before : string) :
  (forall m b a, getSubstitution m b a [] tmpl = tmpl) ->
  replaceAllChar c tmpl before (String x r)
  = (if Ascii.eqb x c then tmpl else String x EmptyString)
      ++ replaceAllChar c tmpl (before ++ String x EmptyString) r.
Proof.
  intros H. cbn [replaceAllChar]. destruct (Ascii.eqb x c); [|reflexivity].
  now rewrite H.
Qed.

Lemma replaceAllChar_app c tmpl (a b : string) : forall before,
  (forall m b' a', getSubstitution m b' a' [] tmpl = tmpl) ->
  replaceAllChar c tmpl before (a ++ b)
  = replaceAllChar c tmpl before a
      ++ replaceAllChar c tmpl (before ++ a) b.
Proof.
  intros before H; revert before.
  induction a as [|x a IH]; intros before.
  - simpl. now rewrite app_nil_r.
  - change (String x a ++ b) with (String x (a ++ b)).
    rewrite !replaceAllChar_cons by exact H.
    rewrite IH, !app_assoc. reflexivity.
Qed.

Lemma replaceAllChar_before c tmpl (s : string) : forall b1 b2,
  (forall m b a, getSubstitution m b a [] tmpl = tmpl) ->
  replaceAllChar c tmpl b1 s = replaceAllChar c tmpl b2 s.
Proof.
  intros b1 b2 H; revert b1 b2.
  induction s as [|x s IH]; intros b1 b2; [reflexivity|].
  rewrite !replaceAllChar_cons by exact H. f_equal. apply IH.
Qed.

Lemma escape_cons (x : ascii) (r : string) :
  escapePowerShellString (String x r)
  = escapeChar x ++ escapePowerShellString r.
Proof.
  unfold escapePowerShellString.
  assert (T1 : forall m b a, getSubstitution m b a [] "''" = "''") by reflexivity.
  assert (T2 : forall m b a, getSubstitution m b a [] "``" = "``") by reflexivity.
  assert (T3 : forall m b a, getSubstitution m b a [] "`$" = "`$") by reflexivity.
  assert (T4 : forall m b a, getSubstitution m b a [] (dq ++ dq) = dq ++ dq)
    by reflexivity.
  rewrite (replaceAllChar_cons "'" "''" x r EmptyString T1).
  rewrite (replaceAllChar_app "`" "``" _ _ EmptyString T2).
  rewrite (replaceAllChar_app "$" "`$" _ _ EmptyString T3).
  rewrite (replaceAllChar_app (ascii_of_nat 34) (dq ++ dq) _ _ EmptyString T4).
  f_equal.
  - unfold escapeChar.
    destruct (Ascii.eqb x "'") eqn:E1; [reflexivity|].
    cbn [replaceAllChar]. 
    destruct (Ascii.eqb x "`") eqn:E2; [reflexivity|].
    cbn [replaceAllChar append]. 
    destruct (Ascii.eqb x "$") eqn:E3; [reflexivity|].
    cbn [replaceAllChar append].
    destruct (Ascii.eqb x (ascii_of_nat 34)) eqn:E4; reflexivity.
  - rewrite (replaceAllChar_before (ascii_of_nat 34) (dq ++ dq) _ _ EmptyString T4).
    f_equal.
    rewrite (replaceAllChar_before "$" "`$" _ _ EmptyString T3).
    f_equal.
    rewrite (replaceAllChar_before "`" "``" _ _ EmptyString T2).
    f_equal.
    apply (replaceAllChar_before "'" "''" _ _ EmptyString T1).
Qed.

Lemma escape_each (s : string) : escapePowerShellString s = escapeEach s.
Proof.
  induction s as [|x s IH]; [reflexivity|].
  now rewrite escape_cons, IH.
Qed.



Lemma unescape_escapeChar (x : ascii) (r : string) :
  unescapeEach (escapeChar x ++ r) = String x (unescapeEach r).
Proof.
  unfold escapeChar.
  destruct (Ascii.eqb x "'") eqn:E1.
  { apply Ascii.eqb_eq in E1; subst x. reflexivity. }
  destruct (Ascii.eqb x "`") eqn:E2.
  { apply Ascii.eqb_eq in E2; subst x. reflexivity. }
  destruct (Ascii.eqb x "$") eqn:E3.
  { apply Ascii.eqb_eq in E3; subst x. reflexivity. }
  destruct (Ascii.eqb x (ascii_of_nat 34)) eqn:E4.
  { apply Ascii.eqb_eq in E4; subst x. reflexivity. }
  cbn [append unescapeEach]. now rewrite E1, E2, E4.
Qed.

Lemma unescape_escape (s : string) :
  unescapeEach (escapePowerShellString s) = s.
Proof.
  rewrite escape_each. induction s as [|x s IH]; [reflexivity|].
  cbn [escapeEach]. now rewrite unescape_escapeChar, IH.
Qed.

(** X2. Escaping loses nothing: two texts with the same escaped form are
    the same text. *)
Theorem escape_is_injective (a b : string) :
  escapePowerShellString a = escapePowerShellString b -> a = b.
Proof.
  intros H. rewrite <- (unescape_escape a), <- (unescape_escape b).
  now rewrite H.
Qed.

Lemma escape_is_injective_witness : "it's " ++ "$5" = "it's $5".
Proof. apply escape_is_injective. reflexivity. Defined.

(** *** [trim] *)

Lemma trimStart_first (s : string) : no_space (first_char (trimStart s)) = true.
Proof.
  induction s as [|c s IH]; [reflexivity|].
  simpl. destruct (is_space c) eqn:Ec; [exact IH|]. simpl. now rewrite Ec.
Qed.

Lemma trimEnd_last (s : string) : no_space (last_char (trimEnd s)) = true.
Proof.
  induction s as [|c s IH]; [reflexivity|].
  cbn [trimEnd]. destruct (trimEnd s) as [|d t] eqn:Et.
  - destruct (is_space c) eqn:Ec; [reflexivity|]. simpl. now rewrite Ec.
  - exact IH.
Qed.

Lemma trimEnd_first (s : string) :
  no_space (first_char s) = true -> no_space (first_char (trimEnd s)) = true.
Proof.
  destruct s as [|c s]; [reflexivity|].
  cbn [first_char no_space trimEnd]. intros Hc.
  destruct (trimEnd s); [|exact Hc].
  apply negb_true_iff in Hc. rewrite Hc. simpl. now rewrite Hc.
Qed.

Lemma trim_is_trimmed (s : string) : trimmed (trim s) = true.
Proof.
  unfold trimmed, trim.
  now rewrite trimEnd_first, trimEnd_last by apply trimStart_first.
Qed.

Lemma trimStart_fixpoint (s : string) :
  no_space (first_char s) = true -> trimStart s = s.
Proof.
  destruct s as [|c s]; [reflexivity|]. cbn. intros H.
  apply negb_true_iff in H. now rewrite H.
Qed.

Lemma trimEnd_fixpoint (s : string) :
  no_space (last_char s) = true -> trimEnd s = s.
Proof.
  induction s as [|c s IH]; [reflexivity|].
  cbn [last_char trimEnd]. destruct s as [|d s].
  - cbn. intros H. apply negb_true_iff in H. now rewrite H.
  - intros H. rewrite (IH H). reflexivity.
Qed.

Lemma trim_idempotent (s : string) : trim (trim s) = trim s.
Proof.
  pose proof (trim_is_trimmed s) as H. unfold trimmed in H.
  apply andb_prop in H as [H1 H2].
  unfold trim at 1. now rewrite trimStart_fixpoint, trimEnd_fixpoint.
Qed.

(** *** A dollar sign at the end of the title *)

Lemma escapeEach_app (a b : string) :
  escapeEach (a ++ b) = escapeEach a ++ escapeEach b.
Proof.
  induction a as [|x a IH]; [reflexivity|].
  cbn [append escapeEach]. now rewrite IH, app_assoc.
Qed.

Lemma getSubstitution_app m b a caps (p t : string) :
  all_chars (not_char "$") p = true ->
  getSubstitution m b a caps (p ++ t) = p ++ getSubstitution m b a caps t.
Proof.
  induction p as [|c p IH]; [reflexivity|].
  cbn [all_chars]. intros H; apply andb_prop in H as [Hc Hp].
  unfold not_char in Hc. rewrite Ascii.eqb_sym in Hc.
  cbn [append getSubstitution]. destruct (Ascii.eqb c "$"); [discriminate|].
  now rewrite (IH Hp).
Qed.

(** X4. The escaped title is used as a replacement template, and a dollar
    sign in it is still read as the start of a replacement pattern.  A title
    that ends in a dollar sign ends, once escaped and put between single
    quotes, in a dollar sign and a single quote: the pattern for the text
    after the match.  The command that is run then has the rest of the
    command line where the closing quote of the title should be, followed
    by the rest of the command line again. *)
Theorem title_ending_in_dollar (T B f b h : string) :
  let title := T ++ "$" in
  let rest := " --body-file " ++ dq ++ f ++ dq ++ " --base " ++ b ++ " --head " ++ h in
  all_chars (not_char (ascii_of_nat 34)) T = true ->
  all_chars (not_char "$") T = true ->
  includes "--body" title = false ->
  all_chars (not_char (ascii_of_nat 34)) B = true ->
  all_chars (not_char "$") f = true ->
  includes "--body" f = false ->
  includes "--body" b = false ->
  includes "--body" h = false ->
  withTitle (Some title) (withBodyFile f (createCommand title B b h))
  = "gh pr create --title '" ++ escapePowerShellString T ++ "`" ++ rest ++ rest.
Proof.
  cbv zeta. intros Tq Td Tf Bq fd ff bf hf.
  assert (Hfile : all_chars (not_char "$") ("--body-file " ++ dq ++ f ++ dq) = true).
  { now rewrite !all_chars_app, fd. }
  assert (Tq' : all_chars (not_char (ascii_of_nat 34)) (T ++ "$") = true).
  { now rewrite all_chars_app, Tq. }
  assert (Ht : truthy (T ++ "$") = true) by (destruct T; reflexivity).
  unfold withTitle, withBodyFile, createCommand. cbn [truthy_opt dflt]. rewrite Ht.
  destruct (body_flag_found (T ++ "$") B (" --base " ++ b ++ " --head " ++ h) Bq Tf)
    as [m1 H1].
  unfold replace at 3. rewrite H1. cbn [f_before f_matched f_after f_caps].
  rewrite getSubstitution_plain by exact Hfile.
  replace (("gh pr create --title " ++ dq ++ (T ++ "$") ++ dq ++ " ")
             ++ ("--body-file " ++ dq ++ f ++ dq)
             ++ " --base " ++ b ++ " --head " ++ h)
    with ("gh pr create --title " ++ dq ++ (T ++ "$") ++ dq ++ " --body-file " ++ dq ++ f
            ++ dq ++ " --base " ++ b ++ " --head " ++ h)
    by (cbn [append dq]; now rewrite ?app_assoc).
  unfold replace at 2. rewrite (bare_flag_absent (T ++ "$") f b h Tf ff bf hf).
  destruct (title_flag_found (T ++ "$")
              (" --body-file " ++ dq ++ f ++ dq ++ " --base " ++ b ++ " --head " ++ h) Tq')
    as [m2 H2].
  unfold replace. rewrite H2. cbn [f_before f_matched f_after f_caps].
  rewrite !escape_each, escapeEach_app, <- !escape_each.
  replace ("--title '" ++ (escapePowerShellString T ++ escapePowerShellString "$") ++ "'")
    with (("--title '" ++ escapePowerShellString T ++ "`") ++ "$'").
  2:{ change (escapePowerShellString "$") with "`$".
      cbn [append]. rewrite !app_assoc. reflexivity. }
  rewrite getSubstitution_app.
  - match goal with
    | |- context [getSubstitution ?m ?x ?a ?c "$'"] =>
        change (getSubstitution m x a c "$'") with (a ++ EmptyString)
    end.
    rewrite app_nil_r.
    change ("gh pr create --title '" ++ escapePowerShellString T ++ "`"
              ++ (" --body-file " ++ dq ++ f ++ dq ++ " --base " ++ b ++ " --head " ++ h)
              ++ " --body-file " ++ dq ++ f ++ dq ++ " --base " ++ b ++ " --head " ++ h)
      with ("gh pr create " ++ "--title '" ++ escapePowerShellString T ++ "`"
              ++ (" --body-file " ++ dq ++ f ++ dq ++ " --base " ++ b ++ " --head " ++ h)
              ++ " --body-file " ++ dq ++ f ++ dq ++ " --base " ++ b ++ " --head " ++ h).
    f_equal. rewrite !app_assoc. reflexivity.
  - rewrite !all_chars_app, (escape_dollar_free T Td). reflexivity.
Qed.

Lemma title_ending_in_dollar_witness :
  withTitle (Some "Costs in $")
    (withBodyFile "/tmp/b.txt" (createCommand "Costs in $" "Body" "main" "topic"))
  = "gh pr create --title 'Costs in `"
      ++ (" --body-file " ++ dq ++ "/tmp/b.txt" ++ dq ++ " --base main --head topic")
      ++ " --body-file " ++ dq ++ "/tmp/b.txt" ++ dq ++ " --base main --head topic".
Proof.
  apply (title_ending_in_dollar "Costs in " "Body" "/tmp/b.txt" "main" "topic");
    reflexivity.
Defined.

End TextFacts.

(* ===================================================================== *)
(** ** Facts about the calls the operations make *)
(* ===================================================================== *)

Module OperationFacts.
Import Js Regex Host Workflow Spec Scenarios Props.
Import JsFacts RegexFacts WorkflowFacts TextFacts.

(** *** Computations that stay in their directory *)

Section Tracks.
Variable E : Env.
Variable dir : string.

Lemma tracks_ret {A} (a : A) : tracks dir (ret a).
Proof. intros w. exists []. split; [now rewrite List.app_nil_r | constructor]. Qed.

Lemma tracks_throw {A} e : tracks dir (@throw A e).
Proof. intros w. exists []. split; [now rewrite List.app_nil_r | constructor]. Qed.

Lemma tracks_bind {A B} (c : M A) (k : A -> M B) :
  tracks dir c -> (forall a, tracks dir (k a)) -> tracks dir (bind c k).
Proof.
  intros Hc Hk w. unfold bind. destruct (Hc w) as (e1 & H1 & F1).
  destruct (c w) as [[e|a] w1]; cbn [snd] in *.
  - exists e1. auto.
  - destruct (Hk a w1) as (e2 & H2 & F2).
    exists (e1 ++ e2)%list. split.
    + now rewrite H2, H1, List.app_assoc.
    + now apply Forall_app.
Qed.

Lemma tracks_try_catch {A} (c : M A) (h : JsError -> M A) :
  tracks dir c -> (forall e, tracks dir (h e)) -> tracks dir (try_catch c h).
Proof.
  intros Hc Hh w. unfold try_catch. destruct (Hc w) as (e1 & H1 & F1).
  destruct (c w) as [[e|a] w1]; cbn [snd] in *.
  - destruct (Hh e w1) as (e2 & H2 & F2).
    exists (e1 ++ e2)%list. split.
    + now rewrite H2, H1, List.app_assoc.
    + now apply Forall_app.
  - exists e1. auto.
Qed.

Lemma tracks_try_finally {A} (c : M A) (f : M unit) :
  tracks dir c -> tracks dir f -> tracks dir (try_finally c f).
Proof.
  intros Hc Hf w. unfold try_finally. destruct (Hc w) as (e1 & H1 & F1).
  destruct (c w) as [r w1]; cbn [snd] in *.
  destruct (Hf w1) as (e2 & H2 & F2).
  exists (e1 ++ e2)%list. split.
  - destruct (f w1) as [[e|u] w2]; cbn [snd] in *;
      now rewrite H2, H1, List.app_assoc.
  - now apply Forall_app.
Qed.

Lemma tracks_call {A} ev (answer : World -> Result A) :
  proper dir ev -> tracks dir (call ev answer).
Proof.
  intros H w. exists [ev]. split; [reflexivity | now constructor].
Qed.

Lemma tracks_writeFileSync p c : tracks dir (writeFileSync E p c).
Proof.
  intros w. exists [EvWriteFile p c]. unfold writeFileSync.
  split; [now destruct (writeFile_ E w p c) | now constructor].
Qed.

Lemma tracks_unlinkSync p : tracks dir (unlinkSync E p).
Proof.
  intros w. exists [EvUnlink p]. unfold unlinkSync.
  split; [|now constructor].
  destruct (exists_file p (files w)); [now destruct (unlink_ E w p) | reflexivity].
Qed.

End Tracks.

Section Calls.

Variable E : Env.

(** *** The pull request *)

(** The calls one run of [executeGitHubCommand] makes. *)
Lemma executeGitHubCommand_events base title body wd (w : World) :
  let f := tempBodyFileName E w in
  let d := or_else wd (cwd E) in
  let b := dflt body EmptyString in
  exists r w' evs,
    executeGitHubCommand E base title body wd w = (r, w')
    /\ trace w' = (trace w ++ evs)%list
    /\ (if truthy_opt body then
          evs = [EvWriteFile f b; EvUnlink f]
          \/ evs = [EvWriteFile f b;
                    EvExec (powerShellCommand (withTitle title (withBodyFile f base))) d;
                    EvUnlink f]
        else
          evs = [EvExec (powerShellCommand (withTitle title base)) d]
          /\ files w' = files w).
Proof.
  cbv zeta.
  unfold executeGitHubCommand, try_finally, try_catch, bind, exec, call,
    throw, ret.
  destruct (truthy_opt body).
  - cbv zeta. set (f := tempBodyFileName E w).
    unfold writeFileSync.
    destruct (writeFile_ E w f (dflt body EmptyString)) as [e|[]].
    + destruct (cleanup_run E f (log (EvWriteFile f (dflt body EmptyString)) w))
        as (w' & -> & Ht & _).
      eexists; exists w'; eexists. split; [reflexivity|]. split; [|left; reflexivity].
      rewrite Ht. cbn [log trace]. now rewrite <- List.app_assoc.
    + match goal with
      | |- context [exec_ E ?w1 ?c ?d] =>
          set (w1' := w1); set (cmd := c); set (dir := d)
      end.
      destruct (cleanup_run E f (log (EvExec cmd dir) w1')) as (w' & Hc & Ht & _).
      exists (match exec_ E w1' cmd dir with
              | Threw e => Threw (commandFailed e)
              | Returned a => Returned a
              end), w'; eexists.
      split; [|split; [|right; reflexivity]].
      * destruct (exec_ E w1' cmd dir); cbn [cleanup] in Hc |- *;
          unfold log in Hc |- *; now rewrite Hc.
      * rewrite Ht. cbn [log trace]. subst w1'. cbn [trace].
        now rewrite <- !List.app_assoc.
  - cbv zeta. cbn [cleanup ret].
    match goal with
    | |- context [exec_ E w ?c ?d] => set (cmd := c); set (dir := d)
    end.
    exists (match exec_ E w cmd dir with
            | Threw e => Threw (commandFailed e)
            | Returned a => Returned a
            end), (log (EvExec cmd dir) w); eexists.
    split; [now destruct (exec_ E w cmd dir)|].
    split; [reflexivity|]. split; reflexivity.
Qed.

(** The calls one run of [createPullRequest] makes: when no head branch is
    given, the handle and the branch query; then those of
    [executeGitHubCommand], unless the query failed. *)
Lemma createPullRequest_events title body base head wd (w : World) :
  let d := or_else wd (cwd E) in
  let q := EvRevparse d ["--abbrev-ref"; "HEAD"] in
  exists r w' pre core,
    createPullRequest E title body base head wd false w = (Returned r, w')
    /\ trace w' = (trace w ++ pre ++ core)%list
    /\ (if truthy_opt head then pre = []
        else (pre = [EvSimpleGit d] /\ core = [])
             \/ (pre = [EvSimpleGit d; q] /\ core = [])
             \/ pre = [EvSimpleGit d; q])
    /\ (core = []
        \/ exists f c,
             (truthy body = true
              /\ (core = [EvWriteFile f body; EvUnlink f]
                  \/ core = [EvWriteFile f body; EvExec (powerShellCommand c) d;
                             EvUnlink f]))
             \/ (truthy body = false
                 /\ core = [EvExec (powerShellCommand c) d])).
Proof.
  cbv zeta.
  unfold createPullRequest, getGit. unfold try_catch, bind, call, ret.
  destruct (truthy_opt head); cbn [negb].
  - match goal with
    | |- context [executeGitHubCommand E ?c ?t ?b ?d w] =>
        destruct (executeGitHubCommand_events c t b d w)
          as (r & w' & evs & -> & Ht & Hs)
    end.
    cbn [truthy_opt dflt] in Hs.
    assert (Hcore : evs = [] \/ exists f c,
               (truthy body = true
                /\ (evs = [EvWriteFile f body; EvUnlink f]
                    \/ evs = [EvWriteFile f body;
                              EvExec (powerShellCommand c) (or_else wd (cwd E));
                              EvUnlink f]))
               \/ (truthy body = false
                   /\ evs = [EvExec (powerShellCommand c) (or_else wd (cwd E))])).
    { right. destruct (truthy body).
      - eexists; eexists. left. split; [reflexivity|]. exact Hs.
      - exists EmptyString; eexists. right. split; [reflexivity|]. apply Hs. }
    destruct r as [e|out]; eexists; exists w', [], evs;
      (split; [reflexivity | split; [exact Ht | split; [reflexivity | exact Hcore]]]).
  - set (dir := or_else wd (cwd E)).
    destruct (simpleGit_ E w dir) as [e|[]].
    { eexists; eexists; exists [EvSimpleGit dir], [].
      split; [reflexivity|]. split; [reflexivity|]. split; [now left | now left]. }
    set (w1 := log (EvSimpleGit dir) w).
    destruct (revparse_ E w1 dir ["--abbrev-ref"; "HEAD"]) as [e|hb].
    { eexists; eexists;
        exists [EvSimpleGit dir; EvRevparse dir ["--abbrev-ref"; "HEAD"]], [].
      split; [reflexivity|]. split.
      - subst w1. cbn [log trace]. now rewrite <- List.app_assoc.
      - split; [right; now left | now left]. }
    set (w2 := log (EvRevparse dir ["--abbrev-ref"; "HEAD"]) w1).
    match goal with
    | |- context [executeGitHubCommand E ?c ?t ?b ?d w2] =>
        destruct (executeGitHubCommand_events c t b d w2)
          as (r & w' & evs & -> & Ht & Hs)
    end.
    cbn [truthy_opt dflt] in Hs.
    assert (Hcore : evs = [] \/ exists f c,
               (truthy body = true
                /\ (evs = [EvWriteFile f body; EvUnlink f]
                    \/ evs = [EvWriteFile f body;
                              EvExec (powerShellCommand c) dir;
                              EvUnlink f]))
               \/ (truthy body = false
                   /\ evs = [EvExec (powerShellCommand c) dir])).
    { right. destruct (truthy body).
      - eexists; eexists. left. split; [reflexivity|]. exact Hs.
      - exists EmptyString; eexists. right. split; [reflexivity|]. apply Hs. }
    destruct r as [e|out]; eexists; exists w',
      [EvSimpleGit dir; EvRevparse dir ["--abbrev-ref"; "HEAD"]], evs;
      (split; [reflexivity | split; [|split; [right; right; reflexivity | exact Hcore]]];
       rewrite Ht; subst w2 w1; cbn [log trace]; now rewrite <- !List.app_assoc).
Qed.

(** X5. [createPullRequest] with a head branch makes no call to the
    version-control collaborator: it builds no handle and does not ask for
    the current branch. *)
Theorem head_given_no_git_call title body base head wd (w : World) :
  truthy_opt head = true ->
  exists r w' evs,
    createPullRequest E title body base head wd false w = (Returned r, w')
    /\ trace w' = (trace w ++ evs)%list
    /\ forallb (fun ev => negb (is_git ev)) evs = true.
Proof.
  intros Hh.
  destruct (createPullRequest_events title body base head wd w)
    as (r & w' & pre & core & H & Ht & Hpre & Hcore).
  rewrite Hh in Hpre. subst pre.
  exists r, w', core. split; [exact H|]. split; [exact Ht|].
  destruct Hcore as [-> | (f & c & [[_ [-> | ->]] | [_ ->]])]; reflexivity.
Qed.

(** X6. One run of [createPullRequest] starts at most one child process,
    and whatever it writes to a file is the body as it was given, which is
    then not empty. *)
Theorem one_command_one_file title body base head wd (w : World) :
  exists r w' evs,
    createPullRequest E title body base head wd false w = (Returned r, w')
    /\ trace w' = (trace w ++ evs)%list
    /\ List.length (filter is_exec evs) <= 1
    /\ (forall p c, In (EvWriteFile p c) evs -> c = body /\ truthy body = true).
Proof.
  destruct (createPullRequest_events title body base head wd w)
    as (r & w' & pre & core & H & Ht & Hpre & Hcore).
  exists r, w', (pre ++ core)%list. split; [exact H|]. split; [exact Ht|].
  assert (Hp : pre = [] \/ pre = [EvSimpleGit (or_else wd (cwd E))]
               \/ pre = [EvSimpleGit (or_else wd (cwd E));
                         EvRevparse (or_else wd (cwd E)) ["--abbrev-ref"; "HEAD"]]).
  { destruct (truthy_opt head); [now left|].
    destruct Hpre as [[-> _] | [[-> _] | ->]]; auto. }
  split.
  - destruct Hp as [-> | [-> | ->]];
      destruct Hcore as [-> | (f & c & [[_ [-> | ->]] | [_ ->]])];
      cbn; lia.
  - intros p c Hin. apply in_app_or in Hin as [Hin | Hin].
    + destruct Hp as [-> | [-> | ->]]; cbn in Hin; intuition discriminate.
    + destruct Hcore as [-> | (f & c0 & [[Hb [-> | ->]] | [_ ->]])];
        cbn in Hin; intuition try discriminate;
        match goal with H : EvWriteFile _ _ = EvWriteFile _ _ |- _ =>
          inversion H; subst; auto end.
Qed.

(** An output of [executeGitHubCommand] is the answer to the one command
    it ran. *)
Lemma executeGitHubCommand_output base title body wd (w : World) out w' :
  executeGitHubCommand E base title body wd w = (Returned out, w') ->
  let d := or_else wd (cwd E) in
  exists v f pre tail,
    let c := powerShellCommand
               (withTitle title
                  (if truthy_opt body then withBodyFile f base else base)) in
    exec_ E v c d = Returned out
    /\ trace v = (trace w ++ pre)%list
    /\ trace w' = (trace v ++ EvExec c d :: tail)%list
    /\ filter is_exec (pre ++ tail) = [].
Proof.
  cbv zeta.
  unfold executeGitHubCommand, try_finally, try_catch, bind, exec, call,
    throw, ret.
  destruct (truthy_opt body).
  - cbv zeta. set (f := tempBodyFileName E w). set (b := dflt body EmptyString).
    unfold writeFileSync.
    destruct (writeFile_ E w f b) as [e|[]].
    + rewrite cleanup_attempt. discriminate.
    + match goal with
      | |- context [exec_ E ?w1 ?c ?d] =>
          set (w1' := w1); set (cmd := c); set (dir := d)
      end.
      destruct (exec_ E w1' cmd dir) as [e|o] eqn:Ex;
        rewrite cleanup_attempt; intros H; inversion H; subst o w'.
      exists w1', f, [EvWriteFile f b], [EvUnlink f].
      split; [exact Ex|]. split; [reflexivity|]. split; [|reflexivity].
      rewrite unlinkSync_trace. cbn [log trace].
      now rewrite <- List.app_assoc.
  - cbv zeta. cbn [cleanup ret].
    match goal with
    | |- context [exec_ E w ?c ?d] => set (cmd := c); set (dir := d)
    end.
    destruct (exec_ E w cmd dir) as [e|o] eqn:Ex;
      intros H; inversion H; subst o w'.
    exists w, EmptyString, [], [].
    split; [exact Ex|]. split; [now rewrite List.app_nil_r|].
    split; reflexivity.
Qed.

(** X7. A successful [createPullRequest] ran exactly one command, the
    wrapped [gh pr create] line with the title re-quoted and, for a body
    that is not empty, the body moved to a file; the command returned, and
    the result reports its standard output with the white space at both
    ends removed as the URL, the title as given, the base branch or [main],
    and as head the branch that was given or, without one, the answer to
    the query for the current branch. *)
Theorem pull_request_success title body base head wd (w : World) r w' :
  createPullRequest E title body base head wd false w = (Returned r, w') ->
  success r = true ->
  let d := or_else wd (cwd E) in
  exists out head' v f pre tail,
    let c := powerShellCommand
               (withTitle (Some title)
                  (if truthy body
                   then withBodyFile f
                          (createCommand title body (dflt base "main") head')
                   else createCommand title body (dflt base "main") head')) in
    r = mkResult true "Successfully created pull request"
          (Some (PullRequestDone (trim (stdout out)) title (dflt base "main")
                   head')) None
    /\ exec_ E v c d = Returned out
    /\ trace v = (trace w ++ pre)%list
    /\ trace w' = (trace v ++ EvExec c d :: tail)%list
    /\ filter is_exec (pre ++ tail) = []
    /\ trimmed (trim (stdout out)) = true
    /\ (if truthy_opt head then Some head' = head
        else revparse_ E (log (EvSimpleGit d) w) d ["--abbrev-ref"; "HEAD"]
             = Returned head').
Proof.
  cbv zeta.
  unfold createPullRequest, getGit. unfold try_catch, bind, call, ret.
  destruct (truthy_opt head) eqn:Hh; cbn [negb].
  - match goal with
    | |- context [executeGitHubCommand E ?c ?t ?b ?d w] =>
        destruct (executeGitHubCommand E c t b d w) as [[e|out] v'] eqn:Hx
    end;
    intros H S; inversion H; subst; cbn [success] in S; try discriminate.
    apply executeGitHubCommand_output in Hx
      as (v & f & pre & tail & Hex & Hv & Hw & Hf).
    cbn [truthy_opt] in Hex, Hw.
    exists out, (dflt head EmptyString), v, f, pre, tail.
    split; [reflexivity|]. split; [exact Hex|]. split; [exact Hv|].
    split; [exact Hw|]. split; [exact Hf|]. split; [apply trim_is_trimmed|].
    destruct head as [h|]; [reflexivity | discriminate].
  - set (dir := or_else wd (cwd E)).
    destruct (simpleGit_ E w dir) as [e|[]].
    { intros H S; inversion H; subst; discriminate. }
    set (w1 := log (EvSimpleGit dir) w).
    destruct (revparse_ E w1 dir ["--abbrev-ref"; "HEAD"]) as [e|hb] eqn:Hrev.
    { intros H S; inversion H; subst; discriminate. }
    set (w2 := log (EvRevparse dir ["--abbrev-ref"; "HEAD"]) w1).
    match goal with
    | |- context [executeGitHubCommand E ?c ?t ?b ?d w2] =>
        destruct (executeGitHubCommand E c t b d w2) as [[e|out] v'] eqn:Hx
    end;
    intros H S; inversion H; subst; cbn [success] in S; try discriminate.
    apply executeGitHubCommand_output in Hx
      as (v & f & pre & tail & Hex & Hv & Hw & Hf).
    cbn [truthy_opt] in Hex, Hw.
    exists out, hb, v, f,
      ([EvSimpleGit dir; EvRevparse dir ["--abbrev-ref"; "HEAD"]] ++ pre)%list,
      tail.
    split; [reflexivity|]. split; [exact Hex|].
    split.
    { rewrite Hv. subst w2 w1. cbn [log trace]. now rewrite <- !List.app_assoc. }
    split; [exact Hw|]. split; [cbn [List.app filter is_exec]; exact Hf|]. split; [apply trim_is_trimmed|].
    reflexivity.
Qed.

(** *** Commit and push *)

(** X8. [commitAndPush] returns a result, leaves the files alone, and
    makes its calls in one fixed order, each at most once: handle,
    repository check, status, create branch, switch branch, add, commit,
    current branch, push.  Without a branch argument it makes neither
    checkout call. *)
Theorem commit_calls_in_order files cm br wd dry (w : World) :
  exists r w' evs,
    commitAndPush E files cm br wd dry w = (Returned r, w')
    /\ w' = logs evs w
    /\ ascending (map rank evs) = true
    /\ (truthy_opt br = false -> forallb (fun ev => negb (is_checkout ev)) evs = true).
Proof.
  unfold commitAndPush, getGit. unfold try_catch, bind, call, ret.
  destruct dry; destruct (truthy_opt br); answers.
  all: eexists; eexists;
    (match goal with
     | |- exists evs, (_, ?v) = _ /\ _ =>
         let rec collect v :=
           lazymatch v with
           | log ?ev ?v' => let l := collect v' in constr:((l ++ [ev])%list)
           | _ => constr:(@nil Event)
           end in
         let l := collect v in
         let l' := eval cbn [List.app] in l in
         exists l'
     end).
  all: split; [reflexivity|]; split; [reflexivity|]; split; [reflexivity|].
  all: first [reflexivity | discriminate].
Qed.

Ltac events_of v :=
  lazymatch v with
  | log ?ev ?v' => let l := events_of v' in constr:((l ++ [ev])%list)
  | _ => constr:(@nil Event)
  end.

(** X9. [commitAndPush] reports success only after add, commit, the query
    for the current branch and the push to [origin] have been made, in this
    order and as its last four calls, and commit, query and push went
    through.  What is staged is the given files, or [.] when the list is
    empty; the branch pushed is the answer to the query; the details are
    the summary of the commit and that branch. *)
Theorem commit_success_means_pushed files cm br wd (w : World) r w' :
  commitAndPush E files cm br wd false w = (Returned r, w') ->
  success r = true ->
  let dir := or_else wd (cwd E) in
  let staged := if (0 <? List.length files)%nat then files else ["."] in
  let q := EvRevparse dir ["--abbrev-ref"; "HEAD"] in
  exists pre cr b,
    w' = logs (pre ++ [EvAdd dir staged; EvCommit dir cm; q;
                       EvPush dir "origin" b]) w
    /\ forallb (fun ev => (rank ev <? 5)%nat) pre = true
    /\ commit_ E (logs (pre ++ [EvAdd dir staged]) w) dir cm = Returned cr
    /\ revparse_ E (logs (pre ++ [EvAdd dir staged; EvCommit dir cm]) w) dir
         ["--abbrev-ref"; "HEAD"] = Returned b
    /\ push_ E (logs (pre ++ [EvAdd dir staged; EvCommit dir cm; q]) w) dir
         "origin" b = Returned tt
    /\ r = mkResult true "Successfully committed and pushed changes"
             (Some (CommitDone (cr_commit cr) b (cr_changes cr)
                      (cr_insertions cr) (cr_deletions cr))) None.
Proof.
  cbv zeta.
  unfold commitAndPush, getGit. unfold try_catch, bind, call, ret.
  destruct (truthy_opt br); answers;
    intros H S; inversion H; subst; cbn [success] in S; try discriminate.
  all: match goal with
       | |- exists pre cr b, log (EvPush _ _ _) (log _ (log _ (log _ ?v))) = _ /\ _ =>
           let l := events_of v in
           let l' := eval cbn [List.app] in l in
           exists l'
       end.
  all: eexists; eexists; repeat split; try reflexivity; eassumption.
Qed.

(** *** The composite operation *)

(** X10. Outside a repository [commitAndPush] stops after the repository
    check with the error [Not a Git repository]; it does not ask for the
    status and changes nothing.  The composite operation returns the same
    result and makes no further call. *)
Theorem not_a_repository_stops files cm t b br base auto wd (w : World) :
  let dir := or_else wd (cwd E) in
  let refused :=
    (Returned (mkResult false "Failed to commit and push" None
                 (Some "Not a Git repository")),
     logs [EvSimpleGit dir; EvCheckIsRepo dir] w) in
  simpleGit_ E w dir = Returned tt ->
  checkIsRepo_ E (log (EvSimpleGit dir) w) dir = Returned false ->
  commitAndPush E files cm br wd false w = refused
  /\ completeGitWorkflow E files cm t b br base auto wd false w = refused.
Proof.
  cbv zeta. intros H0 H1.
  assert (H : commitAndPush E files cm br wd false w
              = (Returned (mkResult false "Failed to commit and push" None
                             (Some "Not a Git repository")),
                 logs [EvSimpleGit (or_else wd (cwd E));
                       EvCheckIsRepo (or_else wd (cwd E))] w)).
  { unfold commitAndPush, getGit. unfold try_catch, bind, call, ret.
    cbv zeta. rewrite H0. cbv beta iota. now rewrite H1. }
  split; [exact H|].
  now apply (workflow_stops_at_commit E files cm t b br base auto wd w _ _ H).
Qed.

Lemma commitAndPush_failure_message files cm br wd dry (w : World) r w' :
  commitAndPush E files cm br wd dry w = (Returned r, w') ->
  success r = false -> message r = "Failed to commit and push".
Proof.
  unfold commitAndPush, getGit. unfold try_catch, bind, call, ret.
  destruct dry; destruct (truthy_opt br); answers;
    intros H S; inversion H; subst; cbn [success] in S;
    first [discriminate | reflexivity].
Qed.

Lemma createPullRequest_failure_message title body base head wd dry (w : World) r w' :
  createPullRequest E title body base head wd dry w = (Returned r, w') ->
  success r = false -> message r = "Failed to create pull request".
Proof.
  unfold createPullRequest, getGit. unfold try_catch, bind, call, ret.
  destruct dry; destruct (truthy_opt head); answers;
    try match goal with
    | |- context [executeGitHubCommand E ?c ?t ?b ?d ?v] =>
        destruct (executeGitHubCommand E c t b d v) as [[?|?] ?]
    end;
    intros H S; inversion H; subst; cbn [success] in S;
    first [discriminate | reflexivity].
Qed.

(** X12. A failure of the composite operation is the failure of its
    commit step or of its pull-request step: the message names one of the
    two.  The catch-all of the composite, with the message
    [Git workflow failed], is never reached, and a failed merge never makes
    the composite fail. *)
Theorem workflow_failure_names_the_step files cm t b br base auto wd dry (w : World) r w' :
  completeGitWorkflow E files cm t b br base auto wd dry w = (Returned r, w') ->
  success r = false ->
  message r = "Failed to commit and push"
  \/ message r = "Failed to create pull request".
Proof.
  intros H S. destruct dry.
  { rewrite completeGitWorkflow_dry in H. inversion H; subst. discriminate. }
  destruct (commitAndPush_returns E files cm br wd false w) as (r1 & w1 & H1).
  destruct (success r1) eqn:S1.
  2:{ rewrite (workflow_stops_at_commit E _ _ t b _ base auto _ _ _ _ H1 S1) in H.
      inversion H; subst. left.
      exact (commitAndPush_failure_message _ _ _ _ _ _ _ _ H1 S1). }
  destruct (createPullRequest_returns E t b (Some (dflt base "main")) br wd false w1)
    as (r2 & w2 & H2).
  destruct (success r2) eqn:S2.
  2:{ rewrite (workflow_stops_at_pr E _ _ _ _ _ _ auto _ _ _ _ _ _ H1 S1 H2 S2) in H.
      inversion H; subst. right.
      exact (createPullRequest_failure_message _ _ _ _ _ _ _ _ _ H2 S2). }
  destruct (autoMergeStep_returns E auto r2 wd w2) as (mr & w3 & H3).
  rewrite (workflow_completes E _ _ _ _ _ _ _ _ _ _ _ _ _ _ _ H1 S1 H2 S2 H3) in H.
  inversion H; subst. discriminate.
Qed.

(** X13. Without [autoMerge] the composite operation is the commit step
    followed, when that succeeded, by the pull-request step, and nothing
    else: it leaves the world as the last step run left it, and on success
    reports the details of the two steps and no merge. *)
Theorem no_merge_unless_asked files cm t b br base wd (w : World) r1 w1 r2 w2 :
  commitAndPush E files cm br wd false w = (Returned r1, w1) ->
  createPullRequest E t b (Some (dflt base "main")) br wd false w1
    = (Returned r2, w2) ->
  completeGitWorkflow E files cm t b br base false wd false w
  = if success r1 then
      if success r2 then
        (Returned
           (mkResult true "Successfully completed Git workflow"
              (Some (WorkflowDone (details r1) (details r2) None)) None),
         w2)
      else (Returned r2, w2)
    else (Returned r1, w1).
Proof.
  intros H1 H2. destruct (success r1) eqn:S1.
  2:{ now apply workflow_stops_at_commit. }
  destruct (success r2) eqn:S2.
  2:{ now apply (workflow_stops_at_pr E _ _ _ _ _ _ _ _ _ r1 w1). }
  now apply (workflow_completes E _ _ _ _ _ _ _ _ _ r1 w1 r2 w2 None w2).
Qed.

(** *** The working directory and the wrapper *)

Ltac track :=
  repeat first
    [ apply tracks_ret | apply tracks_throw
    | apply tracks_bind | apply tracks_try_catch | apply tracks_try_finally
    | apply tracks_writeFileSync | apply tracks_unlinkSync
    | apply tracks_call; cbn [proper];
      first [reflexivity | split; [reflexivity | eexists; reflexivity]]
    | match goal with
      | |- tracks _ (if ?b then _ else _) => destruct b
      | |- tracks _ (match ?x with _ => _ end) => destruct x
      end
    | intro ].

Lemma tracks_getGit_bind {A} wd (k : string -> M A) :
  tracks (or_else wd (cwd E)) (k (or_else wd (cwd E))) ->
  tracks (or_else wd (cwd E)) (bind (getGit E wd) k).
Proof.
  intros Hk w. unfold getGit. unfold bind, call, ret. cbv zeta.
  destruct (simpleGit_ E w (or_else wd (cwd E))) as [e|[]]; cbn [snd].
  - exists [EvSimpleGit (or_else wd (cwd E))].
    split; [reflexivity | now constructor].
  - destruct (Hk (log (EvSimpleGit (or_else wd (cwd E))) w)) as (evs & H & F).
    exists (EvSimpleGit (or_else wd (cwd E)) :: evs). split.
    + rewrite H. cbn [log trace]. now rewrite <- List.app_assoc.
    + now constructor.
Qed.

Lemma tracks_executeGitHubCommand base title body wd :
  tracks (or_else wd (cwd E)) (executeGitHubCommand E base title body wd).
Proof.
  intros w. unfold executeGitHubCommand. cbv zeta.
  match goal with
  | |- context [try_finally ?c ?f w] =>
      assert (H : tracks (or_else wd (cwd E)) (try_finally c f))
  end.
  { destruct (truthy_opt body); unfold cleanup, exec; track. }
  apply H.
Qed.

Lemma tracks_commitAndPush files cm br wd dry :
  tracks (or_else wd (cwd E)) (commitAndPush E files cm br wd dry).
Proof.
  unfold commitAndPush.
  apply tracks_try_catch; [|track].
  apply tracks_getGit_bind. track.
Qed.

Lemma tracks_createPullRequest title body base head wd dry :
  tracks (or_else wd (cwd E)) (createPullRequest E title body base head wd dry).
Proof.
  unfold createPullRequest. cbv zeta.
  apply tracks_try_catch; [|track].
  destruct dry; [track|].
  apply tracks_bind.
  - destruct (negb (truthy_opt head)); [|track].
    apply tracks_getGit_bind. track.
  - intros h. apply tracks_bind; [apply tracks_executeGitHubCommand | track].
Qed.

Lemma tracks_mergePullRequest n mm del wd dry :
  tracks (or_else wd (cwd E)) (mergePullRequest E n mm del wd dry).
Proof.
  unfold mergePullRequest, executeWithClearedTokens, exec. cbv zeta. track.
Qed.

Lemma tracks_completeGitWorkflow files cm t b br base auto wd dry :
  tracks (or_else wd (cwd E))
    (completeGitWorkflow E files cm t b br base auto wd dry).
Proof.
  unfold completeGitWorkflow. cbv zeta.
  apply tracks_try_catch; [|track].
  destruct dry; [track|].
  apply tracks_bind; [apply tracks_commitAndPush|]. intros r1.
  destruct (negb (success r1)); [track|].
  apply tracks_bind; [apply tracks_createPullRequest|]. intros r2.
  destruct (negb (success r2)); [track|].
  apply tracks_bind; [|track].
  unfold autoMergeStep.
  destruct (auto && truthy_opt (details_url (details r2))); [|track].
  destruct (search re_pull _); [|track].
  apply tracks_bind; [apply tracks_mergePullRequest | track].
Qed.

(** X11. Whatever the operation and the answers of the environment, every
    call to the version-control collaborator and every child process is
    made in the working directory of the invocation, or in the current
    directory of the process when none is given, and every command that is
    run is behind the wrapper that first clears the two token variables. *)
Theorem calls_stay_in_directory (i : Invocation) (w : World) :
  exists evs,
    trace (snd (run E i w)) = (trace w ++ evs)%list
    /\ Forall (proper (or_else (workingDir_of i) (cwd E))) evs.
Proof.
  destruct i; cbn [run workingDir_of].
  - apply tracks_commitAndPush.
  - apply tracks_createPullRequest.
  - apply tracks_mergePullRequest.
  - apply tracks_completeGitWorkflow.
Qed.

End Calls.

(** *** On concrete runs *)

Lemma createPullRequest_plain_witness :
  trace (snd (createPullRequest quiet "Title" "Body" None (Some "topic") None
                false w0))
  = (trace w0
       ++ [EvWriteFile body_file "Body";
           EvExec
             (powerShellCommand
                ("gh pr create --title 'Title' --body-file " ++ dq ++ body_file
                   ++ dq ++ " --base main --head topic"))
             "/repo";
           EvUnlink body_file])%list.
Proof.
  apply (createPullRequest_plain quiet "Title" "Body" None "topic" None w0);
    reflexivity.
Defined.

Lemma dry_run_echo_witness :
  run quiet (MergePullRequest "42" None (Some false) None true) w0
  = (Returned
       (mkResult true "Dry run: Would merge pull request"
          (Some (MergePreview "42" Merge false)) None),
     w0).
Proof.
  exact (dry_run_echo quiet (MergePullRequest "42" None (Some false) None true)
           w0 eq_refl).
Defined.

Lemma head_given_no_git_call_witness :
  exists r w' evs,
    createPullRequest quiet "Title" "Body" None (Some "topic") None false w0
    = (Returned r, w')
    /\ trace w' = (trace w0 ++ evs)%list
    /\ forallb (fun ev => negb (is_git ev)) evs = true.
Proof.
  apply (head_given_no_git_call quiet "Title" "Body" None (Some "topic") None w0).
  reflexivity.
Defined.

Lemma pull_request_success_witness :
  createPullRequest quiet "Title" "Body" None None None false w0
  = (Returned (created url42), mkWorld create_events [])
  /\ exists out head' v f pre tail,
      created url42
      = mkResult true "Successfully created pull request"
          (Some (PullRequestDone (trim (stdout out)) "Title" "main" head')) None
      /\ exec_ quiet v
           (powerShellCommand
              (withTitle (Some "Title")
                 (withBodyFile f (createCommand "Title" "Body" "main" head'))))
           "/repo" = Returned out
      /\ trace v = pre
      /\ create_events
         = (trace v
              ++ EvExec
                   (powerShellCommand
                      (withTitle (Some "Title")
                         (withBodyFile f
                            (createCommand "Title" "Body" "main" head'))))
                   "/repo" :: tail)%list
      /\ filter is_exec (pre ++ tail) = []
      /\ trimmed (trim (stdout out)) = true
      /\ revparse_ quiet (log (EvSimpleGit "/repo") w0) "/repo"
           ["--abbrev-ref"; "HEAD"] = Returned head'.
Proof.
  assert (H : createPullRequest quiet "Title" "Body" None None None false w0
              = (Returned (created url42), mkWorld create_events [])).
  { vm_compute. reflexivity. }
  split; [exact H|].
  exact (pull_request_success quiet "Title" "Body" None None None w0
           (created url42) (mkWorld create_events []) H eq_refl).
Defined.

Lemma commit_success_means_pushed_witness :
  exists pre cr b,
    snd (commitAndPush quiet ["a.txt"] "fix: typo" None None false w0)
    = logs (pre ++ [EvAdd "/repo" ["a.txt"]; EvCommit "/repo" "fix: typo";
                    EvRevparse "/repo" ["--abbrev-ref"; "HEAD"];
                    EvPush "/repo" "origin" b]) w0
    /\ forallb (fun ev => (rank ev <? 5)%nat) pre = true
    /\ commit_ quiet (logs (pre ++ [EvAdd "/repo" ["a.txt"]]) w0) "/repo"
         "fix: typo" = Returned cr
    /\ revparse_ quiet
         (logs (pre ++ [EvAdd "/repo" ["a.txt"]; EvCommit "/repo" "fix: typo"]) w0)
         "/repo" ["--abbrev-ref"; "HEAD"] = Returned b
    /\ push_ quiet
         (logs (pre ++ [EvAdd "/repo" ["a.txt"]; EvCommit "/repo" "fix: typo";
                        EvRevparse "/repo" ["--abbrev-ref"; "HEAD"]]) w0)
         "/repo" "origin" b = Returned tt
    /\ committed
       = mkResult true "Successfully committed and pushed changes"
           (Some (CommitDone (cr_commit cr) b (cr_changes cr)
                    (cr_insertions cr) (cr_deletions cr))) None.
Proof.
  apply (commit_success_means_pushed quiet ["a.txt"] "fix: typo" None None w0
           committed
           (snd (commitAndPush quiet ["a.txt"] "fix: typo" None None false w0))).
  - vm_compute. reflexivity.
  - reflexivity.
Defined.

Lemma not_a_repository_stops_witness :
  commitAndPush no_repo ["a.txt"] "fix: typo" (Some "topic") None false w0
  = (Returned (mkResult false "Failed to commit and push" None
                 (Some "Not a Git repository")),
     logs [EvSimpleGit "/repo"; EvCheckIsRepo "/repo"] w0)
  /\ completeGitWorkflow no_repo ["a.txt"] "fix: typo" "Title" "Body"
       (Some "topic") None true None false w0
     = (Returned (mkResult false "Failed to commit and push" None
                    (Some "Not a Git repository")),
        logs [EvSimpleGit "/repo"; EvCheckIsRepo "/repo"] w0).
Proof.
  apply (not_a_repository_stops no_repo ["a.txt"] "fix: typo" "Title" "Body"
           (Some "topic") None true None w0); reflexivity.
Defined.

Lemma workflow_failure_names_the_step_witness :
  message create_failed = "Failed to commit and push"
  \/ message create_failed = "Failed to create pull request".
Proof.
  apply (workflow_failure_names_the_step cli_down ["a.txt"] "fix: typo" "Title"
           "Body" None None true None false w0 create_failed
           (snd (completeGitWorkflow cli_down ["a.txt"] "fix: typo" "Title"
                   "Body" None None true None false w0))).
  - vm_compute. reflexivity.
  - reflexivity.
Defined.

Lemma no_merge_unless_asked_witness :
  completeGitWorkflow quiet ["a.txt"] "fix: typo" "Title" "Body" None None
    false None false w0
  = (Returned (workflow_done url42 None),
     mkWorld (commit_events ++ create_events) []).
Proof.
  apply (no_merge_unless_asked quiet ["a.txt"] "fix: typo" "Title" "Body" None
           None None w0 committed (mkWorld commit_events [])
           (created url42) (mkWorld (commit_events ++ create_events) []));
    vm_compute; reflexivity.
Defined.

End OperationFacts.

(* ===================================================================== *)
(** ** Facts about the tool-call handler *)
(* ===================================================================== *)

Module ServerFacts.
Import Js Regex Host Workflow Spec Scenarios Server Props.
Import JsFacts RegexFacts WorkflowFacts.

Section Calls.

Variable E : Env.

(** X15. A call of a tool that is not in the listing makes no call at
    all, and is answered with [isError] and the error text
    [Unknown tool: ] followed by the name. *)
Theorem unknown_tool_is_refused name args (w : World) :
  listed name = false ->
  callTool E name args w
  = (Returned (mkResponse (ErrorPayload ("Unknown tool: " ++ name)) true), w).
Proof.
  unfold listed. cbn [existsb listTools t_name]. intros H.
  repeat (apply orb_false_elim in H as [? H]).
  unfold callTool, dispatch, try_catch, bind, throw, ret.
  repeat match goal with Hx : String.eqb name _ = false |- _ => rewrite Hx; clear Hx end.
  reflexivity.
Qed.

(** X16. A call of a listed tool with its required arguments is answered
    with the result of the operation and never with [isError], whether the
    operation succeeded or not: the operations do not throw, so the
    catch-all of the handler is only reached for unknown names. *)
Theorem listed_tool_is_not_flagged name args (w : World) :
  listed name = true -> has_required name args = true ->
  exists r w',
    dispatch E name args w = (Returned r, w')
    /\ callTool E name args w
       = (Returned (mkResponse (ResultPayload r) false), w').
Proof.
  unfold listed. cbn [existsb listTools t_name]. intros H _.
  unfold callTool, try_catch, bind, ret. unfold dispatch.
  destruct (String.eqb name "git_commit_and_push").
  { destruct (commitAndPush_returns E (dflt (a_files args) [])
                (given (a_commitMessage args)) (a_branch args)
                (a_workingDir args) (dflt (a_dryRun args) false) w)
      as (r & w' & ->). eauto. }
  destruct (String.eqb name "create_pull_request").
  { destruct (createPullRequest_returns E (given (a_title args))
                (given (a_body args)) (Some (or_else (a_baseBranch args) "main"))
                (a_headBranch args) (a_workingDir args)
                (dflt (a_dryRun args) false) w) as (r & w' & ->). eauto. }
  destruct (String.eqb name "merge_pull_request").
  { destruct (mergePullRequest_returns E (given (a_prNumber args))
                (Some (dflt (a_mergeMethod args) Merge))
                (Some (dflt (a_deleteBranch args) true))
                (a_workingDir args) (dflt (a_dryRun args) false) w)
      as (r & w' & ->). eauto. }
  destruct (String.eqb name "complete_git_workflow").
  { destruct (completeGitWorkflow_returns E (dflt (a_files args) [])
                (given (a_commitMessage args)) (given (a_prTitle args))
                (given (a_prBody args)) (a_branch args)
                (Some (or_else (a_baseBranch args) "main"))
                (dflt (a_autoMerge args) false)
                (a_workingDir args) (dflt (a_dryRun args) false) w)
      as (r & w' & ->). eauto. }
  discriminate.
Qed.

(** X17. The defaults the listing declares are the ones the handler
    applies: for every listed tool and every property with a declared
    default, a call that leaves the key out behaves as the call that gives
    the key with the declared default. *)
Theorem declared_defaults_are_applied t p d args (w : World) :
  In t listTools -> In p (t_properties t) -> p_default p = Some d ->
  present args (p_name p) = false ->
  callTool E (t_name t) (with_default (p_name p) d args) w
  = callTool E (t_name t) args w.
Proof.
  intros Ht Hp Hd Ha.
  cbn [In listTools] in Ht.
  destruct Ht as [<- | [<- | [<- | [<- | []]]]]; cbn [t_properties In] in Hp;
    repeat (destruct Hp as [<- | Hp]; [try discriminate Hd|]);
    try contradiction;
    cbn in Hd; inversion Hd; subst d; clear Hd;
    destruct args; cbn in Ha;
    match type of Ha with is_some ?o = false => destruct o; [discriminate Ha|] end;
    reflexivity.
Qed.

End Calls.

Lemma unknown_tool_is_refused_witness :
  callTool quiet "git_status" no_args w0
  = (Returned (mkResponse (ErrorPayload "Unknown tool: git_status") true), w0).
Proof.
  apply (unknown_tool_is_refused quiet "git_status" no_args w0). reflexivity.
Defined.

Lemma listed_tool_is_not_flagged_witness :
  exists r w',
    dispatch no_repo "git_commit_and_push"
      (mkArgs (Some ["a.txt"]) (Some "fix: typo") None None None None None None
         None None None None None None None) w0
    = (Returned r, w')
    /\ callTool no_repo "git_commit_and_push"
         (mkArgs (Some ["a.txt"]) (Some "fix: typo") None None None None None
            None None None None None None None None) w0
       = (Returned (mkResponse (ResultPayload r) false), w').
Proof.
  apply (listed_tool_is_not_flagged no_repo "git_commit_and_push"); reflexivity.
Defined.

Lemma declared_defaults_are_applied_witness :
  callTool quiet "merge_pull_request"
    (mkArgs None None None None None None None None None (Some "42") None
       (Some true) None None None) w0
  = callTool quiet "merge_pull_request"
      (mkArgs None None None None None None None None None (Some "42") None
         None None None None) w0.
Proof.
  apply (declared_defaults_are_applied quiet
           (mkTool "merge_pull_request"
              "Merge a GitHub pull request"
              [ plain "prNumber" "string" "Pull request number";
                mkProperty "mergeMethod" "string" None
                  ["merge"; "squash"; "rebase"]
                  "Merge method" (Some (JString "merge"));
                mkProperty "deleteBranch" "boolean" None []
                  "Delete branch after merge" (Some (JBool true));
                workingDirProperty "Working directory path";
                dryRunProperty "Preview without executing" ]
              ["prNumber"])
           (mkProperty "deleteBranch" "boolean" None []
              "Delete branch after merge" (Some (JBool true)))
           (JBool true)
           (mkArgs None None None None None None None None None (Some "42")
              None None None None None) w0).
  - cbn. tauto.
  - cbn. tauto.
  - reflexivity.
  - reflexivity.
Defined.

End ServerFacts.
